(** * paymob-capture: the capture handler and its revisions

    A shallow embedding of the Appwrite function that captures a Paymob
    transaction.  The repository holds four revisions of the same handler:

    - [Loose]  (main.js, lines 1-99): token exchange, major units,
      [captureTransaction] returns [false] on failure;
    - [Strict] (main.js, lines 100-329): static bearer key, minor units,
      rate limiter, body-size gate, strict validation, masked errors;
    - [Token]  (part_000, lines 1-100): token exchange, major units,
      [captureTransaction] throws on failure;
    - [Bearer] (part_000, lines 101-244): static bearer key, major units,
      basic validation.

    JavaScript values are embedded as an inductive type, strings as lists of
    UTF-16 code units, thrown errors and the module-level rate-limit map
    through a small state-and-exception monad.  What the JavaScript runtime
    and the axios transport contribute ([JSON.parse], [Buffer.byteLength],
    string coercion, the gateway's answer) is a parameter of the model.  The
    calls of [log] and [error] write to the operator's log; no branch reads
    them, and they are left out. *)

From Stdlib Require Import ZArith NArith QArith Qround Qabs Lia Bool String Ascii List.
From Stdlib Require Import SpecFloat.
From stdpp Require Import base gmap list.
Import ListNotations.

Set Warnings "-register-all".
Local Open Scope Z_scope.

(** ** JavaScript values *)

Module Js.

(** A JavaScript string is a sequence of UTF-16 code units. *)
Abbreviation jsstring := (list N).

Definition cu (c : ascii) : N := N_of_ascii c.

(** The code units of an ASCII literal of the source. *)
Fixpoint js (s : string) : jsstring :=
  match s with
  | EmptyString => []
  | String c r => cu c :: js r
  end.

Arguments js : simpl never.

(** A JavaScript number.  A finite double is a rational number and [Fin q]
    stands for it; [is_binary64] says which rationals are doubles.
    Comparisons, the integer test and [Math.round] are exact on doubles, and
    so are they here; the product [x * 100] is rounded to the nearest double,
    ties to even, as the engine rounds it ([round_binary64]). *)
Inductive Num : Type :=
| NaN
| Inf (negative : bool)
| Fin (q : Q).

Inductive JsValue : Type :=
| JUndefined
| JNull
| JBool (b : bool)
| JNum (x : Num)
| JStr (s : jsstring)
| JArr (items : list JsValue)
| JObj (props : list (jsstring * JsValue)).

Inductive TypeTag : Type :=
| TUndefined | TObject | TBoolean | TNumber | TString.

Definition typeof (v : JsValue) : TypeTag :=
  match v with
  | JUndefined => TUndefined
  | JNull => TObject
  | JBool _ => TBoolean
  | JNum _ => TNumber
  | JStr _ => TString
  | JArr _ => TObject
  | JObj _ => TObject
  end.

Definition is_object (v : JsValue) : bool :=
  match typeof v with TObject => true | _ => false end.

Definition is_string (v : JsValue) : bool :=
  match typeof v with TString => true | _ => false end.

Definition is_number (v : JsValue) : bool :=
  match typeof v with TNumber => true | _ => false end.

(** ToBoolean on numbers: [0] and [NaN] are falsy. *)
Definition num_truthy (x : Num) : bool :=
  match x with
  | NaN => false
  | Inf _ => true
  | Fin q => negb (Qeq_bool q 0)
  end.

(** ToBoolean. *)
Definition truthy (v : JsValue) : bool :=
  match v with
  | JUndefined | JNull => false
  | JBool b => b
  | JNum x => num_truthy x
  | JStr s => match s with [] => false | _ => true end
  | JArr _ | JObj _ => true
  end.

(** [a || b] *)
Definition jor (a b : JsValue) : JsValue := if truthy a then a else b.

(** [x <= y], [x < y] and [x > y] on numbers; every comparison with [NaN]
    is false. *)
Definition num_leb (x y : Num) : bool :=
  match x, y with
  | NaN, _ | _, NaN => false
  | Inf true, _ => true
  | _, Inf false => true
  | Inf false, _ => false
  | _, Inf true => false
  | Fin p, Fin q => Qle_bool p q
  end.

Definition num_ltb (x y : Num) : bool :=
  match x, y with
  | NaN, _ | _, NaN => false
  | Inf true, Inf true => false
  | Inf true, _ => true
  | Inf false, _ => false
  | Fin _, Inf negative => negb negative
  | Fin p, Fin q => negb (Qle_bool q p)
  end.

Definition num_gtb (x y : Num) : bool := num_ltb y x.

Definition num_of_Z (z : Z) : Num := Fin (inject_Z z).

(** [Number.isFinite] on a number. *)
Definition isFinite (x : Num) : bool :=
  match x with Fin _ => true | _ => false end.

(** [Number.isInteger] on a number. *)
Definition isInteger (x : Num) : bool :=
  match x with
  | Fin q => Qeq_bool q (inject_Z (Qfloor q))
  | _ => false
  end.

(** [m * 2^e]. *)
Definition ldexp (m e : Z) : Q :=
  match e with
  | Zneg p => m # (2 ^ p)
  | _ => inject_Z (m * 2 ^ e)
  end.

(** The finite numbers of the engine, IEEE 754 binary64: [m * 2^e] with a
    significand of at most 53 bits and an exponent from -1074 to 971. *)
Definition is_binary64 (q : Q) : Prop :=
  exists m e : Z, Z.abs m < 2 ^ 53 /\ -1074 <= e <= 971 /\ (q == ldexp m e)%Q.

(** The exponent of the last place of binary64 at [y]: 52 below the binary
    order of magnitude of [y], and -1074 throughout the subnormal range
    (the floor of [|y| * 2^1074] has the order of magnitude of [y] plus
    1074 as soon as [|y|] is at least [2^-1074]). *)
Definition binary64_exponent (y : Q) : Z :=
  Z.max (Z.log2 (Qfloor (Qabs y * inject_Z (2 ^ 1074))) - 1126) (-1074).

(** The nearest integer, a half going to the even neighbour. *)
Definition round_half_even (x : Q) : Z :=
  let f := Qfloor x in
  match (x - inject_Z f ?= 1 # 2)%Q with
  | Lt => f
  | Gt => f + 1
  | Eq => if Z.even f then f else f + 1
  end.

(** The result of an arithmetic operation whose exact value is [y]: the
    nearest binary64 number, ties to even, and an infinity once the rounded
    magnitude reaches [2^1024]. *)
Definition round_binary64 (y : Q) : Num :=
  let e := binary64_exponent y in
  let m := round_half_even (y / ldexp 1 e) in
  if Qle_bool (inject_Z (2 ^ 1024)) (Qabs (ldexp m e))
  then Inf (m <? 0)
  else Fin (ldexp m e).

(** [x * 100]: the exact product, rounded to binary64. *)
Definition times100 (x : Num) : Num :=
  match x with
  | NaN => NaN
  | Inf s => Inf s
  | Fin q => round_binary64 (q * 100)
  end.

(** A finite binary64 number, [m * 2^e]. *)
Definition binary64 (m : positive) (e : Z) : spec_float := S754_finite false m e.

(** [x * 100] by the multiplication of the Standard Library's IEEE 754
    model, for comparison with [times100] ([100] is
    [7036874417766400 * 2^-46]). *)
Definition times100_binary64 (x : spec_float) : spec_float :=
  SFmul 53 1024 x (binary64 7036874417766400 (-46)).

(** The number a binary64 value stands for. *)
Definition value_of (x : spec_float) : Num :=
  match x with
  | S754_zero _ => Fin 0
  | S754_infinity s => Inf s
  | S754_nan => NaN
  | S754_finite s m e =>
      let magnitude :=
        match e with
        | Zneg p => Zpos m # (2 ^ p)
        | _ => inject_Z (Zpos m * 2 ^ e)
        end in
      Fin (if s then - magnitude else magnitude)
  end.

(** [Math.round]: the nearest integer, halves towards +infinity. *)
Definition Math_round (x : Num) : Num :=
  match x with
  | Fin q => Fin (inject_Z (Qfloor (q + (1 # 2))))
  | _ => x
  end.

(** Property lookup on an object literal; the first binding of a key is
    the property.  Reading a property the value does not have gives
    [undefined]. *)
Fixpoint lookup_prop (k : jsstring) (props : list (jsstring * JsValue)) : JsValue :=
  match props with
  | [] => JUndefined
  | (k', v) :: rest => if decide (k' = k) then v else lookup_prop k rest
  end.

(** [v.k] for a [v] that is neither [null] nor [undefined], for the
    property names the handlers read ([transactionId], [amount],
    [amountCents], [token], [detail], [message]). *)
Definition get (v : JsValue) (k : jsstring) : JsValue :=
  match v with
  | JObj props => lookup_prop k props
  | _ => JUndefined
  end.

(** [v?.k] *)
Definition opt_get (v : JsValue) (k : jsstring) : JsValue :=
  match v with
  | JUndefined | JNull => JUndefined
  | _ => get v k
  end.

(** The code units [String.prototype.trim] removes: WhiteSpace and
    LineTerminator. *)
Definition isWhiteSpace (c : N) : bool :=
  ((9 <=? c) && (c <=? 13) || (c =? 32) || (c =? 160) || (c =? 5760)
   || (8192 <=? c) && (c <=? 8202) || (c =? 8232) || (c =? 8233)
   || (c =? 8239) || (c =? 8287) || (c =? 12288) || (c =? 65279))%N.

Fixpoint trimStart (s : jsstring) : jsstring :=
  match s with
  | [] => []
  | c :: r => if isWhiteSpace c then trimStart r else s
  end.

Definition trimEnd (s : jsstring) : jsstring := rev (trimStart (rev s)).

Definition trim (s : jsstring) : jsstring := trimEnd (trimStart s).

(** A thrown [Error]; axios errors carry the response they came from. *)
Record Error : Type := mkError {
  message : jsstring;
  response : option (Z * JsValue)
}.

Definition new_Error (msg : jsstring) : Error := mkError msg None.

(** What the JavaScript engine contributes. *)
Record Runtime : Type := {
  (** [JSON.parse(v)], the argument coerced to a string first; a
      [SyntaxError] on the left. *)
  JSON_parse : JsValue -> Error + JsValue;
  (** [Buffer.byteLength(JSON.stringify(v))]; a thrown error on the left
      (for [undefined], whose serialization is not a string). *)
  stringify_byteLength : JsValue -> Error + Z;
  (** [JSON.stringify(v)] where the result goes into a message. *)
  JSON_stringify : JsValue -> JsValue;
  (** String coercion of a value that is no string. *)
  ToString : JsValue -> jsstring;
  (** The [TypeError] of reading property [k] of [null] or [undefined]. *)
  TypeError : jsstring -> Error
}.

(** [`${v}`] in a template literal: a string is spliced as it is, any other
    value through the engine's coercion. *)
Definition template (r : Runtime) (v : JsValue) : jsstring :=
  match v with
  | JStr s => s
  | _ => ToString r v
  end.

End Js.
Export Js.

(** ** Network and process state *)

(** A request on the wire to the gateway. *)
Inductive Outbound : Type :=
| AuthTokens (api_key : jsstring)
| Capture (authorization : option jsstring) (auth_token : option JsValue)
          (transaction_id : jsstring) (amount_cents : Num).

(** What the HTTP adapter of axios gets back: a response with its status and
    decoded body, or no response at all (timeout, network error, a body over
    the size limit). *)
Inductive Transport : Type :=
| HttpResponse (status : Z) (data : JsValue)
| NoResponse (reason : jsstring).

(** The process state a handler invocation can touch: the module-level
    [rateLimitStore] and the requests put on the wire so far. *)
Record Heap : Type := mkHeap {
  rateLimitStore : gmap jsstring (list Z);
  outbox : list Outbound
}.

(** The surroundings of one invocation. *)
Record World : Type := mkWorld {
  rt : Runtime;
  now : Z;                          (* Date.now() *)
  uuid : jsstring;                  (* crypto.randomUUID() *)
  env_key : option jsstring;        (* process.env.PAYMOB_SECRET_KEY / PAYMOB_API_KEY *)
  gateway : Outbound -> Transport
}.

Record Headers : Type := mkHeaders {
  x_forwarded_for : option jsstring;
  x_real_ip : option jsstring
}.

Record Request : Type := mkRequest {
  method : jsstring;
  headers : option Headers;         (* None: req.headers is undefined *)
  body : JsValue
}.

(** The argument of [res.json(obj, status)]. *)
Record Response : Type := mkResponse {
  status : Z;
  success : bool;
  error : option jsstring;
  requestId : option jsstring
}.

(** ** State and exceptions *)

Definition M (A : Type) : Type := Heap -> Heap * (Error + A).

Definition ret {A} (a : A) : M A := fun h => (h, inr a).

Definition throw {A} (e : Error) : M A := fun h => (h, inl e).

Definition bind {A B} (m : M A) (k : A -> M B) : M B :=
  fun h =>
    match m h with
    | (h', inr a) => k a h'
    | (h', inl e) => (h', inl e)
    end.

(** [try { m } catch (e) { handler e }] *)
Definition try_catch {A} (m : M A) (handler : Error -> M A) : M A :=
  fun h =>
    match m h with
    | (h', inl e) => handler e h'
    | (h', inr a) => (h', inr a)
    end.

Definition lift {A} (r : Error + A) : M A :=
  match r with
  | inl e => throw e
  | inr a => ret a
  end.

Notation "'let*' x ':=' m 'in' k" := (bind m (fun x => k))
  (at level 10, x pattern, m at level 100, k at level 200).

(** Put a request on the wire and wait for the transport to settle. *)
Definition send (w : World) (o : Outbound) : M Transport :=
  fun h => (mkHeap (rateLimitStore h) (outbox h ++ [o]), inr (gateway w o)).

(** [res.json(obj, status)]; called without a status, the runtime answers
    200. *)
Definition res_json (success : bool) (error : option jsstring)
    (requestId : option jsstring) (status : Z) : Response :=
  mkResponse status success error requestId.

Definition jsstring_eqb (a b : jsstring) : bool := bool_decide (a = b).

(** The message of the error axios rejects a response with. *)
Definition axios_status_message (r : Runtime) (st : Z) : jsstring :=
  js "Request failed with status code " ++ template r (JNum (num_of_Z st)).

(** [axios.post] of an instance with the library's defaults, which is what
    the revisions without [validateStatus] and with pass-through
    interceptors use: a response with a 2xx status fulfils the promise, any
    other status rejects it with an error that carries the response, and a
    transport failure rejects it with an error without response. *)
Definition axios_post (w : World) (o : Outbound) : M (Z * JsValue) :=
  let* t := send w o in
  match t with
  | HttpResponse st d =>
      if (200 <=? st) && (st <? 300)
      then ret (st, d)
      else throw (mkError (axios_status_message (rt w) st) (Some (st, d)))
  | NoResponse reason => throw (mkError reason None)
  end.

(** [!key] for a key that is a string or undefined. *)
Definition missing (key : option jsstring) : bool :=
  match key with
  | Some (_ :: _) => false
  | _ => true
  end.

(** [err.response?.data] *)
Definition response_data (err : Error) : JsValue :=
  match response err with
  | Some (_, d) => d
  | None => JUndefined
  end.

(** [bodyData.k]: a [TypeError] when [bodyData] is [null]. *)
Definition prop (w : World) (bodyData : JsValue) (k : jsstring) : M JsValue :=
  match bodyData with
  | JNull | JUndefined => throw (TypeError (rt w) k)
  | _ => ret (get bodyData k)
  end.

(** [msg || fallback] on strings. *)
Definition msg_or (msg fallback : jsstring) : jsstring :=
  match msg with
  | [] => fallback
  | _ => msg
  end.

(** ** The strict revision (main.js, lines 100-329) *)

Module Strict.

(** [SECURITY_CONFIG] *)
Definition MAX_REQUEST_SIZE : Z := 512000.
Definition REQUEST_TIMEOUT : Z := 10000.
Definition RATE_LIMIT_WINDOW : Z := 60000.
Definition MAX_REQUESTS_PER_IP : nat := 5.

(** *** Rate limiter *)

(** [checkRateLimit(clientId)] at time [now], on the module's
    [rateLimitStore]: the answer and the store it leaves. *)
Definition checkRateLimit (now : Z) (clientId : jsstring)
    (store : gmap jsstring (list Z)) : bool * gmap jsstring (list Z) :=
  let windowStart := now - RATE_LIMIT_WINDOW in
  let store1 :=
    match store !! clientId with
    | Some _ => store
    | None => <[clientId := []]> store
    end in
  let requests := default [] (store1 !! clientId) in
  let validRequests := List.filter (fun timestamp => windowStart <? timestamp) requests in
  if (MAX_REQUESTS_PER_IP <=? length validRequests)%nat
  then (false, store1)
  else (true, <[clientId := validRequests ++ [now]]> store1).

(** Successive calls of one client at the given times. *)
Fixpoint calls (clientId : jsstring) (times : list Z)
    (store : gmap jsstring (list Z)) : list bool * gmap jsstring (list Z) :=
  match times with
  | [] => ([], store)
  | t :: rest =>
      let '(ok, store') := checkRateLimit t clientId store in
      let '(oks, store'') := calls clientId rest store' in
      (ok :: oks, store'')
  end.

(** *** Input validation *)

(** The class of the first [replace]: angle brackets, double and single
    quote, ampersand, and the controls 0x00-0x1f and 0x7f-0x9f. *)
Definition isDangerous (c : N) : bool :=
  ((c =? 60) || (c =? 62) || (c =? 34) || (c =? 39) || (c =? 38)
   || (c <=? 31) || (127 <=? c) && (c <=? 159))%N.

(** Canonicalization of a case-insensitive regular expression without the
    unicode flag, as far as it can send a code unit to an ASCII one: only
    ASCII lower-case letters move. *)
Definition upper (c : N) : N :=
  (if (97 <=? c) && (c <=? 122) then c - 32 else c)%N.

Fixpoint starts_with_ci (pat s : jsstring) : bool :=
  match pat, s with
  | [], _ => true
  | _ :: _, [] => false
  | p :: pat', c :: s' => (upper p =? upper c)%N && starts_with_ci pat' s'
  end.

(** [s.replace(/pat/gi, '')] for a literal [pat]: scanning from the left,
    each match is dropped and the scan resumes behind it; [skip] counts the
    code units of the current match still to drop. *)
Fixpoint remove_ci (pat : jsstring) (skip : nat) (s : jsstring) : jsstring :=
  match s with
  | [] => []
  | c :: s' =>
      match skip with
      | S k => remove_ci pat k s'
      | O =>
          if starts_with_ci pat s
          then remove_ci pat (length pat - 1) s'
          else c :: remove_ci pat 0 s'
      end
  end.

(** The class [\w]. *)
Definition isWord (c : N) : bool :=
  ((65 <=? c) && (c <=? 90) || (97 <=? c) && (c <=? 122)
   || (48 <=? c) && (c <=? 57) || (c =? 95))%N.

Fixpoint word_run (s : jsstring) : nat :=
  match s with
  | [] => 0
  | c :: r => if isWord c then S (word_run r) else 0
  end.

(** The length of the match of [/on\w+=/i] at the start of [s], if any.
    [\w+] is greedy and ['='] is no word character, so the only candidate
    is the whole run of word characters. *)
Definition match_on_handler (s : jsstring) : option nat :=
  match s with
  | o :: n :: rest =>
      if ((upper o =? 79) && (upper n =? 78))%N
      then
        let k := word_run rest in
        if (1 <=? k)%nat && bool_decide (rest !! k = Some 61%N)
        then Some (2 + k + 1)%nat
        else None
      else None
  | _ => None
  end.

(** [s.replace(/on\w+=/gi, '')] *)
Fixpoint remove_on_handlers (skip : nat) (s : jsstring) : jsstring :=
  match s with
  | [] => []
  | c :: s' =>
      match skip with
      | S k => remove_on_handlers k s'
      | O =>
          match match_on_handler s with
          | Some len => remove_on_handlers (len - 1) s'
          | None => c :: remove_on_handlers 0 s'
          end
      end
  end.

Definition sanitizeInput (input : JsValue) (maxLength : nat) : Error + jsstring :=
  match input with
  | JStr input =>
      let sanitized :=
        firstn maxLength
          (remove_on_handlers 0
             (remove_ci (js "javascript:") 0
                (List.filter (fun c => negb (isDangerous c)) (trim input)))) in
      match sanitized with
      | [] => inl (new_Error (js "Input cannot be empty after sanitization"))
      | _ => inr sanitized
      end
  | _ => inl (new_Error (js "Input must be a string"))
  end.

(** The test of [/^[A-Za-z0-9_-]+$/]. *)
Definition isIdChar (c : N) : bool :=
  ((65 <=? c) && (c <=? 90) || (97 <=? c) && (c <=? 122)
   || (48 <=? c) && (c <=? 57) || (c =? 95) || (c =? 45))%N.

Definition test_id_regex (s : jsstring) : bool :=
  match s with
  | [] => false
  | _ => forallb isIdChar s
  end.

Definition validateTransactionId (transactionId : JsValue) : Error + jsstring :=
  match transactionId with
  | JStr s =>
      if (length s <? 5)%nat || (50 <? length s)%nat
      then inl (new_Error (js "Transaction ID must be 5-50 characters"))
      else if negb (test_id_regex s)
      then inl (new_Error (js "Transaction ID contains invalid characters"))
      else sanitizeInput transactionId 50
  | _ => inl (new_Error (js "Transaction ID must be a string"))
  end.

Definition validateAmount (amount : JsValue) : Error + Num :=
  match amount with
  | JNum x =>
      if negb (isFinite x)
      then inl (new_Error (js "Amount must be a finite number"))
      else if num_leb x (num_of_Z 0)
      then inl (new_Error (js "Amount must be positive"))
      else if num_gtb x (num_of_Z 99999999)
      then inl (new_Error (js "Amount exceeds maximum limit"))
      else if negb (isInteger x)
      then inl (new_Error (js "Amount must be an integer (piasters)"))
      else inr x
  | _ => inl (new_Error (js "Amount must be a finite number"))
  end.

(** *** Gateway client *)

(** [validateStatus] of [secureAxios]. *)
Definition validateStatus (status : Z) : bool :=
  (200 <=? status) && (status <? 300).

(** The response interceptor of [secureAxios], fulfilled side. *)
Definition on_response (status : Z) (data : JsValue) : Error + (Z * JsValue) :=
  if negb (truthy data) || negb (is_object data)
  then inl (new_Error (js "Invalid capture response format"))
  else inr (status, data).

(** The response interceptor of [secureAxios], rejected side; [None] when
    [error.response] is undefined. *)
Definition on_error (status : option Z) : Error :=
  match status with
  | Some st =>
      if st =? 429 then new_Error (js "Capture rate limit exceeded")
      else if 500 <=? st then new_Error (js "Capture service unavailable")
      else if (st =? 401) || (st =? 403) then new_Error (js "Capture authentication failed")
      else new_Error (js "Capture request failed")
  | None => new_Error (js "Capture request failed")
  end.

(** [a || b] where [a] is a string or undefined and [b] a string. *)
Definition str_or (a : option jsstring) (b : jsstring) : jsstring :=
  match a with
  | Some (c :: s) => c :: s
  | _ => b
  end.

Section Invocation.

Variable w : World.

(** [secureAxios.post(url, payload, config)]: the transport settles, then
    [validateStatus] and the response interceptor decide. *)
Definition secureAxios_post (o : Outbound) : M (Z * JsValue) :=
  let* t := send w o in
  match t with
  | HttpResponse st d =>
      if validateStatus st
      then lift (on_response st d)
      else throw (on_error (Some st))
  | NoResponse _ => throw (on_error None)
  end.

(** [err.response?.data?.detail || err.response?.data?.message || err.message] *)
Definition errMsg_of (err : Error) : JsValue :=
  jor (opt_get (response_data err) (js "detail"))
      (jor (opt_get (response_data err) (js "message")) (JStr (message err))).

Definition captureTransaction (secretKey : option jsstring)
    (transactionId : jsstring) (amountPiasters : Num) : M bool :=
  if missing secretKey
  then throw (new_Error (js "Server configuration error: Missing Secret Key."))
  else if negb (truthy (JStr transactionId)) || negb (num_truthy amountPiasters)
          || num_leb amountPiasters (num_of_Z 0)
  then throw (new_Error (js "Invalid input for capture: Missing transactionId or invalid amount."))
  else
    try_catch
      (let* (st, data) :=
         secureAxios_post
           (Capture (Some (js "Token " ++ default [] secretKey)) None
                    transactionId amountPiasters) in
       if negb (truthy data) || negb (is_object data)
       then throw (new_Error (js "Invalid capture response format"))
       else
         let isSuccess := (st =? 200) || (st =? 201) in
         if isSuccess
         then ret true
         else
           let failureMsg :=
             jor (opt_get data (js "message"))
                 (jor (opt_get data (js "detail")) (JStr (js "Capture failed"))) in
           throw (new_Error (js "Paymob Capture Failed: " ++ template (rt w) failureMsg)))
      (fun err =>
         throw (new_Error (js "Paymob Capture Request Failed: "
                             ++ template (rt w) (errMsg_of err)))).

(** *** Request handler *)

Definition clientId_of (hs : Headers) : jsstring :=
  str_or (x_forwarded_for hs) (str_or (x_real_ip hs) (js "unknown")).

(** [checkRateLimit] on the heap, at the time of the invocation. *)
Definition rate_limit (clientId : jsstring) : M bool :=
  fun h =>
    let '(ok, store') := checkRateLimit (now w) clientId (rateLimitStore h) in
    (mkHeap store' (outbox h), inr ok).

(** The inner [try] of the handler: parse the body and validate both
    fields. *)
Definition parse_and_validate (req : Request) : M (jsstring * Num) :=
  if negb (truthy (body req))
  then throw (new_Error (js "Request body is missing."))
  else
    let* bodyData := lift (JSON_parse (rt w) (body req)) in
    let* tid := prop w bodyData (js "transactionId") in
    let* transactionId := lift (validateTransactionId tid) in
    let* amt := prop w bodyData (js "amountCents") in
    let* amountCents := lift (validateAmount amt) in
    ret (transactionId, amountCents).

(** The body of the outermost [try]. *)
Definition handler_try (req : Request) : M Response :=
  let requestId := uuid w in
  if negb (jsstring_eqb (method req) (js "POST"))
  then ret (res_json false (Some (js "Method not allowed")) None 405)
  else
    let* hs :=
      match headers req with
      | Some hs => ret hs
      | None => throw (TypeError (rt w) (js "x-forwarded-for"))
      end in
    let clientId := clientId_of hs in
    let* allowed := rate_limit clientId in
    if negb allowed
    then ret (res_json false (Some (js "Too many capture requests")) None 429)
    else
      let* bodySize := lift (stringify_byteLength (rt w) (body req)) in
      if MAX_REQUEST_SIZE <? bodySize
      then ret (res_json false (Some (js "Request too large")) None 413)
      else
        let secretKey := env_key w in
        if missing secretKey
        then ret (res_json false (Some (js "Server configuration error.")) None 500)
        else
          let* parsed :=
            try_catch
              (let* r := parse_and_validate req in ret (inr r))
              (fun parseError =>
                 ret (inl (res_json false (Some (js "Invalid request body")) None 400))) in
          match parsed with
          | inl early => ret early
          | inr (transactionId, amountCents) =>
              try_catch
                (let* _ := captureTransaction secretKey transactionId amountCents in
                 ret (res_json true None (Some requestId) 200))
                (fun flowError =>
                   ret (res_json false (Some (js "Capture process failed"))
                                 (Some requestId) 500))
          end.

(** The exported handler. *)
Definition handler (req : Request) : M Response :=
  let requestId := uuid w in
  try_catch
    (handler_try req)
    (fun mainError =>
       ret (res_json false (Some (js "Server error")) (Some requestId) 500)).

End Invocation.

End Strict.

(** ** The first revision (main.js, lines 1-99): token exchange, major
    units, failures reported as [null] and [false] *)

Module Loose.

Section Invocation.

Variable w : World.

Definition getAuthToken (apiKey : option jsstring) : M JsValue :=
  if missing apiKey
  then ret JNull
  else
    try_catch
      (let* (st, data) := axios_post w (AuthTokens (default [] apiKey)) in
       if truthy data && truthy (get data (js "token"))
       then ret (get data (js "token"))
       else ret JNull)
      (fun err => ret JNull).

Definition captureTransaction (authToken : JsValue) (transactionId : jsstring)
    (amountPiasters : Num) : M bool :=
  if negb (truthy (JStr transactionId)) || negb (num_truthy amountPiasters)
     || num_leb amountPiasters (num_of_Z 0)
  then ret false
  else
    try_catch
      (let* (st, data) :=
         axios_post w (Capture None (Some authToken) transactionId amountPiasters) in
       if (200 <=? st) && (st <? 300) && truthy data
       then ret true
       else ret false)
      (fun err => ret false).

(** The [try] that reads the body: both fields, checked in place. *)
Definition parse_and_check (req : Request) : M (jsstring * Num) :=
  if negb (truthy (body req))
  then throw (new_Error (js "Request body is missing."))
  else
    let* bodyData := lift (JSON_parse (rt w) (body req)) in
    let* transactionId := prop w bodyData (js "transactionId") in
    let* amount := prop w bodyData (js "amount") in
    match transactionId with
    | JStr (c :: s) =>
        match amount with
        | JNum x =>
            if num_leb x (num_of_Z 0)
            then throw (new_Error (js "Invalid amount received: "
                                     ++ template (rt w) amount))
            else ret (c :: s, x)
        | _ => throw (new_Error (js "Invalid amount received: "
                                   ++ template (rt w) amount))
        end
    | _ => throw (new_Error (js "Invalid transactionId received: "
                               ++ template (rt w) transactionId))
    end.

Definition handler (req : Request) : M Response :=
  let apiKey := env_key w in
  if missing apiKey
  then ret (res_json false (Some (js "Server configuration error.")) None 500)
  else
    let* parsed :=
      try_catch
        (let* r := parse_and_check req in ret (inr r))
        (fun parseError =>
           ret (inl (res_json false
                       (Some (js "Invalid request body: " ++ message parseError))
                       None 400))) in
    match parsed with
    | inl early => ret early
    | inr (transactionId, amount) =>
        let amountPiasters := Math_round (times100 amount) in
        try_catch
          (let* authToken := getAuthToken apiKey in
           if negb (truthy authToken)
           then throw (new_Error (js "Paymob authentication failed."))
           else
             let* captureSuccess :=
               captureTransaction authToken transactionId amountPiasters in
             if negb captureSuccess
             then throw (new_Error (js "Paymob capture API call failed."))
             else ret (res_json true None None 200))
          (fun flowError =>
             ret (res_json false
                    (Some (msg_or (message flowError) (js "Capture process failed.")))
                    None 500))
    end.

End Invocation.

End Loose.

(** ** The token revision (part_000, lines 1-100): token exchange, major
    units, failures thrown *)

Module Token.

Section Invocation.

Variable w : World.

Definition getAuthToken (apiKey : option jsstring) : M JsValue :=
  if missing apiKey
  then throw (new_Error (js "Server configuration error: Missing API Key."))
  else
    try_catch
      (let* (st, data) := axios_post w (AuthTokens (default [] apiKey)) in
       if truthy data && truthy (get data (js "token"))
       then ret (get data (js "token"))
       else
         let errMsg :=
           if truthy data then JSON_stringify (rt w) data
           else JStr (js "Invalid auth response") in
         throw (new_Error (js "Paymob Auth Failed: " ++ template (rt w) errMsg)))
      (fun err =>
         let errMsg :=
           jor (opt_get (response_data err) (js "message"))
               (jor (opt_get (response_data err) (js "detail")) (JStr (message err))) in
         throw (new_Error (js "Paymob Auth Request Failed: " ++ template (rt w) errMsg))).

(** [err.response?.data?.detail || err.response?.data?.message || err.message] *)
Definition errMsg_of (err : Error) : JsValue :=
  jor (opt_get (response_data err) (js "detail"))
      (jor (opt_get (response_data err) (js "message")) (JStr (message err))).

Definition captureTransaction (authToken : JsValue) (transactionId : jsstring)
    (amountPiasters : Num) : M bool :=
  if negb (truthy (JStr transactionId)) || negb (num_truthy amountPiasters)
     || num_leb amountPiasters (num_of_Z 0)
  then throw (new_Error (js "Invalid input for capture: Missing transactionId or invalid amount."))
  else
    try_catch
      (let* (st, data) :=
         axios_post w (Capture None (Some authToken) transactionId amountPiasters) in
       let isSuccess := (200 <=? st) && (st <? 300) in
       if isSuccess
       then ret true
       else
         let failureMsg :=
           jor (opt_get data (js "message"))
               (jor (opt_get data (js "detail")) (JSON_stringify (rt w) data)) in
         throw (new_Error (js "Paymob Capture Failed: " ++ template (rt w) failureMsg)))
      (fun err =>
         throw (new_Error (js "Paymob Capture Request Failed: "
                             ++ template (rt w) (errMsg_of err)))).

Definition parse_and_check (req : Request) : M (jsstring * Num) :=
  if negb (truthy (body req))
  then throw (new_Error (js "Request body is missing."))
  else
    let* bodyData := lift (JSON_parse (rt w) (body req)) in
    let* transactionId := prop w bodyData (js "transactionId") in
    let* amount := prop w bodyData (js "amount") in
    match transactionId with
    | JStr (c :: s) =>
        match amount with
        | JNum x =>
            if num_leb x (num_of_Z 0)
            then throw (new_Error (js "Invalid amount received: "
                                     ++ template (rt w) amount))
            else ret (c :: s, x)
        | _ => throw (new_Error (js "Invalid amount received: "
                                   ++ template (rt w) amount))
        end
    | _ => throw (new_Error (js "Invalid transactionId received: "
                               ++ template (rt w) transactionId))
    end.

Definition handler (req : Request) : M Response :=
  let apiKey := env_key w in
  let* parsed :=
    try_catch
      (let* r := parse_and_check req in ret (inr r))
      (fun parseError =>
         ret (inl (res_json false
                     (Some (js "Invalid request body: " ++ message parseError))
                     None 400))) in
  match parsed with
  | inl early => ret early
  | inr (transactionId, amount) =>
      let amountPiasters := Math_round (times100 amount) in
      try_catch
        (let* authToken := getAuthToken apiKey in
         let* captureSuccess :=
           captureTransaction authToken transactionId amountPiasters in
         ret (res_json true None None 200))
        (fun flowError =>
           ret (res_json false
                  (Some (msg_or (message flowError) (js "Capture process failed.")))
                  None 500))
  end.

End Invocation.

End Token.

(** ** The bearer revision (part_000, lines 101-244): static key, major
    units, basic validation *)

Module Bearer.

(** [input.trim().replace(/[<>]/g, '')] on a string; any other value is
    returned as it is. *)
Definition sanitizeInput (input : JsValue) : JsValue :=
  match input with
  | JStr s =>
      JStr (List.filter (fun c => negb ((c =? 60) || (c =? 62))%N) (trim s))
  | _ => input
  end.

Definition validateTransactionId (transactionId : JsValue) : Error + JsValue :=
  match transactionId with
  | JStr s =>
      if (length s <? 1)%nat || (100 <? length s)%nat
      then inl (new_Error (js "Invalid transaction ID: must be a string between 1-100 characters"))
      else inr (sanitizeInput transactionId)
  | _ => inl (new_Error (js "Invalid transaction ID: must be a string between 1-100 characters"))
  end.

Definition validateAmount (amount : JsValue) : Error + Num :=
  match amount with
  | JNum x =>
      if num_leb x (num_of_Z 0) || num_gtb x (num_of_Z 1000000)
      then inl (new_Error (js "Invalid amount: must be a positive number less than 1,000,000"))
      else inr x
  | _ => inl (new_Error (js "Invalid amount: must be a positive number less than 1,000,000"))
  end.

(** The string inside a value that validation returned. *)
Definition string_of (v : JsValue) : jsstring :=
  match v with
  | JStr s => s
  | _ => []
  end.

Section Invocation.

Variable w : World.

Definition captureTransaction (secretKey : option jsstring)
    (transactionId : jsstring) (amountPiasters : Num) : M bool :=
  if missing secretKey
  then throw (new_Error (js "Server configuration error: Missing Secret Key."))
  else if negb (truthy (JStr transactionId)) || negb (num_truthy amountPiasters)
          || num_leb amountPiasters (num_of_Z 0)
  then throw (new_Error (js "Invalid input for capture: Missing transactionId or invalid amount."))
  else
    try_catch
      (let* (st, data) :=
         axios_post w
           (Capture (Some (js "Token " ++ default [] secretKey)) None
                    transactionId amountPiasters) in
       let isSuccess := st =? 201 in
       if isSuccess
       then ret true
       else
         let failureMsg :=
           jor (opt_get data (js "message"))
               (jor (opt_get data (js "detail")) (JSON_stringify (rt w) data)) in
         throw (new_Error (js "Paymob Capture Failed: " ++ template (rt w) failureMsg)))
      (fun err =>
         throw (new_Error (js "Paymob Capture Request Failed: "
                             ++ template (rt w) (Token.errMsg_of err)))).

Definition parse_and_validate (req : Request) : M (jsstring * Num) :=
  if negb (truthy (body req))
  then throw (new_Error (js "Request body is missing."))
  else
    let* bodyData := lift (JSON_parse (rt w) (body req)) in
    let* tid := prop w bodyData (js "transactionId") in
    let* transactionId := lift (validateTransactionId tid) in
    let* amt := prop w bodyData (js "amount") in
    let* amount := lift (validateAmount amt) in
    ret (string_of transactionId, amount).

Definition handler (req : Request) : M Response :=
  let secretKey := env_key w in
  if missing secretKey
  then ret (res_json false (Some (js "Server configuration error.")) None 500)
  else
    let* parsed :=
      try_catch
        (let* r := parse_and_validate req in ret (inr r))
        (fun parseError =>
           ret (inl (res_json false
                       (Some (js "Invalid request body: " ++ message parseError))
                       None 400))) in
    match parsed with
    | inl early => ret early
    | inr (transactionId, amount) =>
        let amountPiasters := Math_round (times100 amount) in
        try_catch
          (let* _ := captureTransaction secretKey transactionId amountPiasters in
           ret (res_json true None None 200))
          (fun flowError =>
             ret (res_json false
                    (Some (msg_or (message flowError) (js "Capture process failed.")))
                    None 500))
    end.

End Invocation.

End Bearer.

(** ** Vocabulary of the statements *)

(** The timestamps of [requests] inside the 60 s window that ends at [now]. *)
Definition live (now : Z) (requests : list Z) : list Z :=
  List.filter (fun timestamp => now - 60000 <? timestamp) requests.

(** The string holds no angle bracket. *)
Definition no_angle (s : jsstring) : Prop :=
  ~ In 60%N s /\ ~ In 62%N s.

(** The string with its angle brackets removed. *)
Definition strip_angles (s : jsstring) : jsstring :=
  List.filter (fun c => negb ((c =? 60) || (c =? 62))%N) s.

(** A code unit of the class [A-Za-z0-9_-]. *)
Definition id_char (c : N) : Prop :=
  (65 <= c <= 90 \/ 97 <= c <= 122 \/ 48 <= c <= 57 \/ c = 95 \/ c = 45)%N.

(** The policy of the strict revision on a transaction identifier: 5 to 50
    code units, all of the class. *)
Definition id_policy (s : jsstring) : Prop :=
  (5 <= length s <= 50)%nat /\ Forall id_char s.

(** What the strict revision accepts as an amount, and returns for it: a
    finite number, strictly positive, at most 99,999,999, and an integer. *)
Definition amount_policy (amount : JsValue) (x : Num) : Prop :=
  exists q, amount = JNum (Fin q) /\ x = Fin q
            /\ (0 < q)%Q /\ (q <= 99999999)%Q /\ exists z : Z, (q == inject_Z z)%Q.

(** The preconditions of a capture on the identifier and the amount. *)
Definition capturable (transactionId : jsstring) (amountPiasters : Num) : Prop :=
  transactionId <> [] /\ num_truthy amountPiasters = true
  /\ num_leb amountPiasters (num_of_Z 0) = false.

(** The message of a failed capture as the specification extracts it from
    the response body: [detail] if present, otherwise [message], otherwise a
    fallback. *)
Definition spec_failure_text (r : Runtime) (data : JsValue) (fallback : jsstring) : jsstring :=
  template r (jor (opt_get data (js "detail"))
                  (jor (opt_get data (js "message")) (JStr fallback))).

(** The capture request of the strict and the bearer revision on the wire. *)
Definition strict_wire (key : option jsstring) (tid : jsstring) (amt : Num) : Outbound :=
  Capture (Some (js "Token " ++ default [] key)) None tid amt.

(** The capture request of the token revisions on the wire. *)
Definition token_wire (authToken : JsValue) (tid : jsstring) (amt : Num) : Outbound :=
  Capture None (Some authToken) tid amt.

(** The answers the strict revision takes for a successful capture: status
    200 or 201 with an object for a body. *)
Definition capture_ok (t : Transport) : bool :=
  match t with
  | HttpResponse st d => ((st =? 200) || (st =? 201)) && truthy d && is_object d
  | NoResponse _ => false
  end.

(** The verdict of a strict capture: the preconditions hold and the
    gateway answers 200 or 201 with an object. *)
Definition capture_succeeds (w : World) (key : option jsstring) (tid : jsstring)
    (amt : Num) : bool :=
  negb (missing key)
  && negb (negb (truthy (JStr tid)) || negb (num_truthy amt) || num_leb amt (num_of_Z 0))
  && capture_ok (gateway w (strict_wire key tid amt)).

(** The capture failed with an error whose message starts with the prefix
    of the gateway client. *)
Definition fails_with_message (out : Heap * (Error + bool)) : Prop :=
  exists text, snd out = inl (new_Error (js "Paymob Capture Request Failed: " ++ text)).



(** The two numbers are the same number. *)
Definition same_number (x y : Num) : bool :=
  match x, y with
  | NaN, NaN => true
  | Inf a, Inf b => Bool.eqb a b
  | Fin p, Fin q => Qeq_bool p q
  | _, _ => false
  end.

(** The heap once the token exchange of the token revisions is on the wire. *)
Definition after_auth (w : World) (h : Heap) : Heap :=
  mkHeap (rateLimitStore h) (outbox h ++ [AuthTokens (default [] (env_key w))]).

(** ** A concrete world for closed examples *)

(** The literal between double quotes. *)
Definition quoted (s : string) : jsstring := 34%N :: js s ++ [34%N].

(** The text [{"transactionId":<id>,<field>:<number>}] with the
    identifier and the field name in double quotes. *)
Definition body_text (id field number : string) : jsstring :=
  js "{" ++ quoted "transactionId" ++ js ":" ++ quoted id ++ js ","
     ++ quoted field ++ js ":" ++ js number ++ js "}".

(** An engine that knows how to parse one body text; its string coercion is
    the identity on strings, and the serialized size of a string of
    printable ASCII is its length, two quotes, and one backslash for each
    double quote or backslash inside. *)
Definition example_runtime (text : jsstring) (value : JsValue) : Runtime := {|
  JSON_parse := fun v =>
    match v with
    | JStr s => if decide (s = text) then inr value
                else inl (new_Error (js "Unexpected token in JSON"))
    | _ => inl (new_Error (js "Unexpected token in JSON"))
    end;
  stringify_byteLength := fun v =>
    match v with
    | JStr s =>
        inr (2 + Z.of_nat (length s)
               + Z.of_nat (length (List.filter (fun c => (c =? 34) || (c =? 92))%N s)))
    | JUndefined => inl (new_Error (js "The string argument must be of type string"))
    | _ => inr 2
    end;
  JSON_stringify := fun v =>
    match v with
    | JStr s => JStr (34%N :: s ++ [34%N])
    | _ => JStr (js "{}")
    end;
  ToString := fun v =>
    match v with
    | JStr s => s
    | _ => js "[object Object]"
    end;
  TypeError := fun k => new_Error (js "Cannot read properties of null")
|}.

Definition example_world (r : Runtime) (key : option jsstring)
    (gw : Outbound -> Transport) : World :=
  mkWorld r 1700000000000 (js "0b9f6a52-7c1e-4f0a-9d3b-5e2a8c417d66") key gw.

Definition empty_heap : Heap := mkHeap ∅ [].

Definition example_headers : Headers :=
  mkHeaders (Some (js "203.0.113.7")) None.

(** A well-formed capture request of the strict revision:
    [{"transactionId":"TXN12345","amountCents":10000}]. *)
Definition strict_text : jsstring := body_text "TXN12345" "amountCents" "10000".

Definition strict_value : JsValue :=
  JObj [(js "transactionId", JStr (js "TXN12345"));
        (js "amountCents", JNum (num_of_Z 10000))].

Definition strict_request : Request :=
  mkRequest (js "POST") (Some example_headers) (JStr strict_text).


(** The double nearest to [0.001]: [4611686018427388 * 2^-62]. *)
Definition milli : Q := 4611686018427388 # 4611686018427387904.

(** A request of the major-unit revisions for a thousandth of a pound:
    [{"transactionId":"TXN12345","amount":0.001}]. *)
Definition tiny_text : jsstring := body_text "TXN12345" "amount" "0.001".

Definition tiny_value : JsValue :=
  JObj [(js "transactionId", JStr (js "TXN12345"));
        (js "amount", JNum (Fin milli))].

Definition tiny_request : Request :=
  mkRequest (js "POST") (Some example_headers) (JStr tiny_text).

(** A gateway that hands out a token and accepts every capture with 201. *)
Definition friendly_gateway (o : Outbound) : Transport :=
  match o with
  | AuthTokens _ => HttpResponse 201 (JObj [(js "token", JStr (js "tok_9f3a"))])
  | Capture _ _ _ _ => HttpResponse 201 (JObj [(js "id", JNum (num_of_Z 7731))])
  end.


(** A gateway that answers a capture with 202 and a body that is no JSON,
    which axios hands over as the string it received. *)
Definition accepting_gateway (o : Outbound) : Transport :=
  match o with
  | AuthTokens _ => HttpResponse 201 (JObj [(js "token", JStr (js "tok_9f3a"))])
  | Capture _ _ _ _ => HttpResponse 202 (JStr (js "Accepted"))
  end.

Definition sample_key : option jsstring := Some (js "sk_live_2f81").

Definition strict_world (gw : Outbound -> Transport) : World :=
  example_world (example_runtime strict_text strict_value) sample_key gw.

Definition tiny_world (gw : Outbound -> Transport) : World :=
  example_world (example_runtime tiny_text tiny_value) sample_key gw.

(** ** Vocabulary of the further properties *)

(** The clock does not run backwards: the times of successive calls are in
    order, none before [lo]. *)
Fixpoint nondecreasing (lo : Z) (times : list Z) : Prop :=
  match times with
  | [] => True
  | t :: rest => lo <= t /\ nondecreasing t rest
  end.

(** The times of the calls the limiter allowed. *)
Fixpoint allowed_times (times : list Z) (oks : list bool) : list Z :=
  match times, oks with
  | t :: ts, ok :: os => if ok then t :: allowed_times ts os else allowed_times ts os
  | _, _ => []
  end.

(** [a] lies in the minute that ends at [t]. *)
Definition in_window (t a : Z) : bool := (t - 60000 <? a) && (a <=? t).

(** No record of the store holds more than five timestamps. *)
Definition bounded_store (store : gmap jsstring (list Z)) : Prop :=
  forall c l, store !! c = Some l -> (length l <= 5)%nat.

(** Successive invocations of the strict handler, each in its own world
    (clock, environment, gateway), on the state the previous one left. *)
Fixpoint serve (invocations : list (World * Request)) (h : Heap) : Heap :=
  match invocations with
  | [] => h
  | (w, req) :: rest => serve rest (fst (Strict.handler w req h))
  end.

(** The invocation happens in the minute that ends at [t], and its request,
    if it has headers, is of the client [c]. *)
Definition of_client_within (c : jsstring) (t : Z) (i : World * Request) : Prop :=
  t - 60000 < now (fst i) <= t
  /\ forall hs, headers (snd i) = Some hs -> Strict.clientId_of hs = c.

(** The responses the strict handler can give. *)
Definition strict_responses (requestId : jsstring) : list Response :=
  [ mkResponse 200 true None (Some requestId);
    mkResponse 400 false (Some (js "Invalid request body")) None;
    mkResponse 405 false (Some (js "Method not allowed")) None;
    mkResponse 413 false (Some (js "Request too large")) None;
    mkResponse 429 false (Some (js "Too many capture requests")) None;
    mkResponse 500 false (Some (js "Server configuration error.")) None;
    mkResponse 500 false (Some (js "Capture process failed")) (Some requestId);
    mkResponse 500 false (Some (js "Server error")) (Some requestId) ].

(** An amount the guard of [captureTransaction] lets through: positive, or
    positive infinity. *)
Definition chargeable (amt : Num) : Prop :=
  amt = Inf false \/ exists q, amt = Fin q /\ (0 < q)%Q.

(** [h'] is [h] after one request [o] to the gateway. *)
Definition sends (h h' : Heap) (o : Outbound) : Prop :=
  h' = mkHeap (rateLimitStore h) (outbox h ++ [o]).

(** The default [validateStatus] of axios. *)
Definition is_2xx (st : Z) : bool := (200 <=? st) && (st <? 300).



(** The major-unit revisions with a token exchange accept the body of [req]
    with the identifier [tid] and the amount [x]. *)
Definition loose_body_ok (w : World) (req : Request) (tid : jsstring) (x : Num) : Prop :=
  truthy (body req) = true
  /\ exists bodyData,
       JSON_parse (rt w) (body req) = inr bodyData
       /\ get bodyData (js "transactionId") = JStr tid /\ tid <> []
       /\ get bodyData (js "amount") = JNum x
       /\ (x = NaN \/ x = Inf false \/ exists q, x = Fin q /\ (0 < q)%Q).

(** The responses of the revisions without a request identifier: 200 with
    [success: true] and no error text, or 400 or 500 with [success: false]
    and an error text. *)
Definition loose_surface (r : Response) : Prop :=
  requestId r = None
  /\ ((status r = 200 /\ success r = true /\ error r = None)
      \/ ((status r = 400 \/ status r = 500) /\ success r = false
          /\ exists text, error r = Some text)).

(** ** Further requests for closed examples *)

(** The double nearest to [1.115]: [5021513584518103 * 2^-52].  It lies
    below 1.115, and its product with 100 is rounded up to 111.5. *)
Definition pounds : Q := 5021513584518103 # 4503599627370496.

(** A request in major units for 1.115 pounds:
    [{"transactionId":"TXN12345","amount":1.115}]. *)
Definition pounds_text : jsstring := body_text "TXN12345" "amount" "1.115".

Definition pounds_value : JsValue :=
  JObj [(js "transactionId", JStr (js "TXN12345"));
        (js "amount", JNum (Fin pounds))].

Definition pounds_request : Request :=
  mkRequest (js "POST") (Some example_headers) (JStr pounds_text).


(** A request whose identifier is made of angle brackets only. *)
Definition blank_text : jsstring := body_text "<>" "amount" "25.5".

Definition blank_value : JsValue :=
  JObj [(js "transactionId", JStr (js "<>"));
        (js "amount", JNum (Fin (51 # 2)))].

Definition blank_request : Request :=
  mkRequest (js "POST") (Some example_headers) (JStr blank_text).

Definition blank_world : World :=
  example_world (example_runtime blank_text blank_value) sample_key friendly_gateway.

(** * Properties *)

Ltac msimpl :=
  repeat (progress (unfold bind, try_catch, ret, throw, lift;
                    cbn beta iota zeta; cbn [negb orb andb fst snd])).

Ltac crunch :=
  repeat first [progress msimpl | case_match | progress simplify_eq/=].

(** ** Rate limiter *)

Section RateLimiter.

Implicit Types (store : gmap jsstring (list Z)) (clientId : jsstring).

Lemma live_In now requests t :
  In t (live now requests) <-> In t requests /\ now - 60000 < t.
Proof.
  unfold live. rewrite filter_In. rewrite Z.ltb_lt. reflexivity.
Qed.

Lemma checkRateLimit_deny now clientId store :
  (5 <= length (live now (default [] (store !! clientId))))%nat ->
  Strict.checkRateLimit now clientId store = (false, store).
Proof.
  intros Hfull. unfold Strict.checkRateLimit, Strict.RATE_LIMIT_WINDOW, Strict.MAX_REQUESTS_PER_IP.
  destruct (store !! clientId) as [requests|] eqn:Hlook.
  - rewrite Hlook. change (default [] (Some requests)) with requests in *.
    fold (live now requests).
    destruct (5 <=? length (live now requests))%nat eqn:Hcap.
    + reflexivity.
    + apply Nat.leb_gt in Hcap. lia.
  - cbn in Hfull. lia.
Qed.

Lemma checkRateLimit_allow now clientId store :
  (length (live now (default [] (store !! clientId))) < 5)%nat ->
  Strict.checkRateLimit now clientId store
  = (true, <[clientId := live now (default [] (store !! clientId)) ++ [now]]> store).
Proof.
  intros Hroom. unfold Strict.checkRateLimit, Strict.RATE_LIMIT_WINDOW, Strict.MAX_REQUESTS_PER_IP.
  destruct (store !! clientId) as [requests|] eqn:Hlook.
  - rewrite Hlook. change (default [] (Some requests)) with requests in *.
    fold (live now requests).
    destruct (5 <=? length (live now requests))%nat eqn:Hcap.
    + apply Nat.leb_le in Hcap. lia.
    + reflexivity.
  - rewrite lookup_insert_eq. cbn. rewrite insert_insert_eq. reflexivity.
Qed.

Lemma live_expired now requests :
  Forall (fun t => t <= now - 60000) requests -> live now requests = [].
Proof.
  induction 1 as [|t requests Ht _ IH]; [reflexivity|].
  unfold live in *. simpl. rewrite IH.
  destruct (now - 60000 <? t) eqn:E; [apply Z.ltb_lt in E; lia | reflexivity].
Qed.

Lemma live_cons_in now t requests :
  now - 60000 < t -> live now (t :: requests) = t :: live now requests.
Proof.
  intros H. unfold live. simpl.
  destruct (now - 60000 <? t) eqn:E; [reflexivity | apply Z.ltb_ge in E; lia].
Qed.

Lemma live_cons_out now t requests :
  t <= now - 60000 -> live now (t :: requests) = live now requests.
Proof.
  intros H. unfold live. simpl.
  destruct (now - 60000 <? t) eqn:E; [apply Z.ltb_lt in E; lia | reflexivity].
Qed.

Lemma live_length now requests : (length (live now requests) <= length requests)%nat.
Proof.
  induction requests as [|t requests IH]; [reflexivity|].
  unfold live in *. simpl. destruct (now - 60000 <? t); simpl; lia.
Qed.

End RateLimiter.

(** C2: the rate limiter with cap 5 and window 60 s.  A call prunes the
    client's timestamps that are not newer than [now - 60000]; with 5 or more
    left it answers [false] and leaves the store as it was; otherwise it
    records [now] behind the pruned list and answers [true].  Hence five calls
    inside one window are allowed, the sixth is denied, and a call 60 s after
    the first is allowed again. *)
Theorem rate_limiter_window (clientId : jsstring) (store : gmap jsstring (list Z))
    (now t1 t2 t3 t4 t5 t6 t7 : Z)
    (Hold : Forall (fun t => t <= t1 - 60000) (default [] (store !! clientId)))
    (Horder : t1 <= t2 /\ t2 <= t3 /\ t3 <= t4 /\ t4 <= t5 /\ t5 <= t6)
    (Hwithin : t6 < t1 + 60000)
    (Hpast : t1 + 60000 <= t7) :
  let requests := default [] (store !! clientId) in
  let validRequests := List.filter (fun t => now - 60000 <? t) requests in
  (forall t, In t validRequests <-> In t requests /\ now - 60000 < t)
  /\ ((5 <= length validRequests)%nat ->
      Strict.checkRateLimit now clientId store = (false, store))
  /\ ((length validRequests < 5)%nat ->
      Strict.checkRateLimit now clientId store
      = (true, <[clientId := validRequests ++ [now]]> store))
  /\ fst (Strict.calls clientId [t1; t2; t3; t4; t5; t6; t7] store)
     = [true; true; true; true; true; false; true].
Proof.
  intros requests validRequests.
  split; [intros t; apply live_In|].
  split; [apply checkRateLimit_deny|].
  split; [apply checkRateLimit_allow|].
  unfold Strict.calls.
  rewrite checkRateLimit_allow by (rewrite (live_expired _ _ Hold); simpl; lia).
  rewrite (live_expired _ _ Hold). cbn [app].
  do 4 (rewrite checkRateLimit_allow;
        rewrite ?lookup_insert_eq; change (default [] (Some ?l)) with l;
        repeat (rewrite live_cons_in by lia); change (live _ []) with (@nil Z);
        [cbn [app] | cbn; lia]).
  rewrite checkRateLimit_deny.
  2:{ rewrite ?lookup_insert_eq. change (default [] (Some ?l)) with l.
      repeat (rewrite live_cons_in by lia). cbn. lia. }
  rewrite checkRateLimit_allow.
  - reflexivity.
  - rewrite ?lookup_insert_eq. change (default [] (Some ?l)) with l.
    rewrite live_cons_out by lia.
    pose proof (live_length t7 [t2; t3; t4; t5]) as Hlen. cbn [length] in Hlen. lia.
Qed.

Lemma rate_limiter_window_witness :
  fst (Strict.calls (js "203.0.113.7") [1000; 2000; 3000; 4000; 5000; 6000; 61000] ∅)
  = [true; true; true; true; true; false; true].
Proof.
  apply (rate_limiter_window (js "203.0.113.7") ∅ 0 1000 2000 3000 4000 5000 6000 61000).
  - rewrite lookup_empty. constructor.
  - lia.
  - lia.
  - lia.
Defined.

(** ** Input validation *)

Lemma isInteger_spec q : isInteger (Fin q) = true <-> exists z : Z, (q == inject_Z z)%Q.
Proof.
  unfold isInteger. rewrite Qeq_bool_iff. split.
  - intros H. exists (Qfloor q). exact H.
  - intros [z Hz]. rewrite Hz at 1. rewrite Hz, Qfloor_Z. reflexivity.
Qed.

Lemma num_leb_Fin p q : num_leb (Fin p) (Fin q) = true <-> (p <= q)%Q.
Proof. apply Qle_bool_iff. Qed.

Lemma num_gtb_Fin p q : num_gtb (Fin p) (Fin q) = true <-> (q < p)%Q.
Proof.
  unfold num_gtb, num_ltb. rewrite negb_true_iff.
  rewrite <- not_true_iff_false, Qle_bool_iff. split; [apply Qnot_le_lt|apply Qlt_not_le].
Qed.

(** C6: the strict revision accepts an amount exactly when it is a finite
    number, strictly positive, at most 99,999,999 and an integer, and then
    returns it unchanged; every other value is rejected. *)
Theorem validateAmount_strict (amount : JsValue) :
  (forall x, Strict.validateAmount amount = inr x <-> amount_policy amount x)
  /\ ((forall x, ~ amount_policy amount x) -> exists e, Strict.validateAmount amount = inl e).
Proof.
  assert (Hiff : forall x, Strict.validateAmount amount = inr x <-> amount_policy amount x).
  { intros x. unfold Strict.validateAmount, amount_policy, num_of_Z. split.
    - intros H. destruct amount as [| | |[| |q]| | |]; try discriminate.
      cbn [isFinite negb] in H.
      destruct (num_leb (Fin q) (Fin (inject_Z 0))) eqn:E0; [discriminate|].
      destruct (num_gtb (Fin q) (Fin (inject_Z 99999999))) eqn:E1; [discriminate|].
      destruct (isInteger (Fin q)) eqn:E2; [|discriminate].
      cbn [negb] in H. injection H as <-.
      exists q. repeat split.
      + apply Qnot_le_lt. intros Hle.
        apply (proj2 (num_leb_Fin q (inject_Z 0))) in Hle. rewrite Hle in E0. discriminate.
      + apply Qnot_lt_le. intros Hlt.
        apply (proj2 (num_gtb_Fin q (inject_Z 99999999))) in Hlt. rewrite Hlt in E1. discriminate.
      + apply isInteger_spec, E2.
    - intros (q & -> & -> & Hpos & Hmax & Hint).
      cbn [isFinite negb].
      destruct (num_leb (Fin q) (Fin (inject_Z 0))) eqn:E0.
      { apply num_leb_Fin in E0. exfalso. apply (Qlt_not_le _ _ Hpos E0). }
      destruct (num_gtb (Fin q) (Fin (inject_Z 99999999))) eqn:E1.
      { apply num_gtb_Fin in E1. exfalso. apply (Qlt_not_le _ _ E1 Hmax). }
      rewrite (proj2 (isInteger_spec q) Hint). reflexivity. }
  split; [exact Hiff|].
  intros Hbad. destruct (Strict.validateAmount amount) as [e|x] eqn:E.
  - exists e. reflexivity.
  - destruct (Hbad x). apply Hiff. reflexivity.
Qed.

Lemma validateAmount_strict_witness :
  Strict.validateAmount (JNum (num_of_Z 10000)) = inr (num_of_Z 10000).
Proof.
  apply (proj1 (validateAmount_strict (JNum (num_of_Z 10000)))).
  exists (inject_Z 10000). repeat split; try discriminate.
  exists 10000. reflexivity.
Defined.

Section Sanitize.

Lemma isIdChar_spec c : Strict.isIdChar c = true <-> id_char c.
Proof.
  unfold Strict.isIdChar, id_char.
  rewrite !orb_true_iff, !andb_true_iff, !N.leb_le, !N.eqb_eq. tauto.
Qed.

Lemma forallb_isIdChar s : forallb Strict.isIdChar s = true <-> Forall id_char s.
Proof.
  rewrite forallb_forall, List.Forall_forall.
  split; intros H c Hc; apply isIdChar_spec, H, Hc.
Qed.

Lemma id_char_not_space c : id_char c -> isWhiteSpace c = false.
Proof.
  unfold id_char, isWhiteSpace. intros H.
  repeat (apply orb_false_intro); rewrite ?andb_false_iff, ?N.leb_gt, ?N.eqb_neq; lia.
Qed.

Lemma id_char_not_dangerous c : id_char c -> Strict.isDangerous c = false.
Proof.
  unfold id_char, Strict.isDangerous. intros H.
  repeat (apply orb_false_intro); rewrite ?andb_false_iff, ?N.leb_gt, ?N.eqb_neq; lia.
Qed.

Lemma trimStart_id s : Forall id_char s -> trimStart s = s.
Proof.
  destruct 1 as [|c s Hc _]; [reflexivity|].
  simpl. rewrite (id_char_not_space c Hc). reflexivity.
Qed.

Lemma trim_id s : Forall id_char s -> trim s = s.
Proof.
  intros H. unfold trim, trimEnd. rewrite (trimStart_id s H).
  rewrite trimStart_id by (apply List.Forall_rev; exact H).
  apply rev_involutive.
Qed.

Lemma filter_dangerous_id s :
  Forall id_char s -> List.filter (fun c => negb (Strict.isDangerous c)) s = s.
Proof.
  induction 1 as [|c s Hc _ IH]; [reflexivity|].
  simpl. rewrite (id_char_not_dangerous c Hc). simpl. rewrite IH. reflexivity.
Qed.

Lemma upper_colon c : Strict.upper c = 58%N -> c = 58%N.
Proof.
  unfold Strict.upper. destruct ((97 <=? c) && (c <=? 122))%N eqn:E; [|easy].
  apply andb_true_iff in E. rewrite !N.leb_le in E. lia.
Qed.

(** A case-insensitive match contains a twin of every pattern unit. *)
Lemma starts_with_ci_In pat : forall s p,
  Strict.starts_with_ci pat s = true -> In p pat -> exists c, In c s /\ Strict.upper p = Strict.upper c.
Proof.
  induction pat as [|p0 pat IH]; intros s p Hm Hin; [destruct Hin|].
  destruct s as [|c s]; [discriminate|].
  simpl in Hm. apply andb_true_iff in Hm as [Hc Hrest].
  destruct Hin as [->|Hin].
  - exists c. split; [left; reflexivity|]. apply N.eqb_eq, Hc.
  - destruct (IH s p Hrest Hin) as (c' & Hc' & Hup).
    exists c'. split; [right; exact Hc'|exact Hup].
Qed.

Lemma no_javascript_scheme s :
  Forall id_char s -> Strict.starts_with_ci (js "javascript:") s = false.
Proof.
  intros Hs. destruct (Strict.starts_with_ci (js "javascript:") s) eqn:E; [|reflexivity].
  destruct (starts_with_ci_In _ s 58%N E) as (c & Hc & Hup).
  { vm_compute. tauto. }
  symmetry in Hup. apply upper_colon in Hup. subst c.
  rewrite List.Forall_forall in Hs. specialize (Hs _ Hc).
  unfold id_char in Hs. lia.
Qed.

Lemma remove_ci_id s :
  Forall id_char s -> Strict.remove_ci (js "javascript:") 0 s = s.
Proof.
  induction 1 as [|c s Hc Hs IH]; [reflexivity|].
  cbn [Strict.remove_ci]. rewrite no_javascript_scheme by (constructor; assumption).
  rewrite IH. reflexivity.
Qed.

Lemma no_on_handler s : Forall id_char s -> Strict.match_on_handler s = None.
Proof.
  intros Hs. unfold Strict.match_on_handler.
  destruct s as [|o [|n rest]]; try reflexivity.
  destruct ((Strict.upper o =? 79) && (Strict.upper n =? 78))%N; [|reflexivity].
  destruct (bool_decide (rest !! Strict.word_run rest = Some 61%N)) eqn:E.
  - apply bool_decide_eq_true in E. apply list_elem_of_lookup_2, list_elem_of_In in E.
    inversion Hs as [|? ? _ Hs']; subst. inversion Hs' as [|? ? _ Hs'']; subst.
    rewrite List.Forall_forall in Hs''. specialize (Hs'' _ E).
    unfold id_char in Hs''. lia.
  - rewrite andb_false_r. reflexivity.
Qed.

Lemma remove_on_handlers_id s :
  Forall id_char s -> Strict.remove_on_handlers 0 s = s.
Proof.
  induction 1 as [|c s Hc Hs IH]; [reflexivity|].
  cbn [Strict.remove_on_handlers]. rewrite no_on_handler by (constructor; assumption).
  rewrite IH. reflexivity.
Qed.

Lemma sanitizeInput_id s :
  id_policy s -> Strict.sanitizeInput (JStr s) 50 = inr s.
Proof.
  intros [Hlen Hs]. unfold Strict.sanitizeInput.
  rewrite (trim_id s Hs), (filter_dangerous_id s Hs), (remove_ci_id s Hs),
    (remove_on_handlers_id s Hs), firstn_all2 by lia.
  destruct s; [simpl in Hlen; lia|reflexivity].
Qed.

Lemma validateTransactionId_accepts s :
  id_policy s -> Strict.validateTransactionId (JStr s) = inr s.
Proof.
  intros Hp. pose proof Hp as [Hlen Hs]. unfold Strict.validateTransactionId.
  destruct (length s <? 5)%nat eqn:E1; [apply Nat.ltb_lt in E1; lia|].
  destruct (50 <? length s)%nat eqn:E2; [apply Nat.ltb_lt in E2; lia|].
  cbn [orb]. unfold Strict.test_id_regex.
  destruct s as [|c s]; [simpl in Hlen; lia|].
  rewrite (proj2 (forallb_isIdChar _) Hs). cbn [negb].
  apply sanitizeInput_id, Hp.
Qed.

Lemma validateTransactionId_inv v s :
  Strict.validateTransactionId v = inr s -> v = JStr s /\ id_policy s.
Proof.
  unfold Strict.validateTransactionId. intros H.
  destruct v as [| | | |t| |]; try discriminate.
  destruct (length t <? 5)%nat eqn:E1; [discriminate|].
  destruct (50 <? length t)%nat eqn:E2; [discriminate|].
  cbn [orb] in H.
  destruct (Strict.test_id_regex t) eqn:E3; [|discriminate]. cbn [negb] in H.
  assert (Hp : id_policy t).
  { split.
    - apply Nat.ltb_ge in E1. apply Nat.ltb_ge in E2. lia.
    - unfold Strict.test_id_regex in E3. destruct t; [discriminate|].
      apply forallb_isIdChar, E3. }
  rewrite (sanitizeInput_id t Hp) in H. injection H as <-. split; [reflexivity|exact Hp].
Qed.

End Sanitize.

(** C7: a transaction identifier that fails the length or character-class
    policy is rejected; one that satisfies it passes sanitization unchanged
    and is returned as it is; validating a returned identifier again returns
    the same string. *)
Theorem validateTransactionId_policy (transactionId : JsValue) :
  ((forall s, transactionId = JStr s -> ~ id_policy s) ->
   exists e, Strict.validateTransactionId transactionId = inl e)
  /\ (forall s, transactionId = JStr s -> id_policy s ->
      Strict.sanitizeInput transactionId 50 = inr s
      /\ Strict.validateTransactionId transactionId = inr s)
  /\ (forall s, Strict.validateTransactionId transactionId = inr s ->
      Strict.validateTransactionId (JStr s) = inr s).
Proof.
  split; [|split].
  - intros Hbad. destruct (Strict.validateTransactionId transactionId) as [e|s] eqn:E.
    + exists e. reflexivity.
    + apply validateTransactionId_inv in E as [-> Hp]. destruct (Hbad s eq_refl Hp).
  - intros s -> Hp. split; [apply sanitizeInput_id|apply validateTransactionId_accepts]; exact Hp.
  - intros s H. apply validateTransactionId_inv in H as [_ Hp].
    apply validateTransactionId_accepts, Hp.
Qed.

Lemma validateTransactionId_policy_witness :
  Strict.sanitizeInput (JStr (js "TXN12345")) 50 = inr (js "TXN12345")
  /\ Strict.validateTransactionId (JStr (js "TXN12345")) = inr (js "TXN12345").
Proof.
  apply (proj1 (proj2 (validateTransactionId_policy (JStr (js "TXN12345"))))).
  - reflexivity.
  - split; [vm_compute; lia|]. apply forallb_isIdChar. reflexivity.
Defined.



(** ** Request handler of the strict revision *)

Section StrictHandler.

Variable w : World.

Lemma parse_and_validate_heap req h :
  fst (Strict.parse_and_validate w req h) = h.
Proof.
  unfold Strict.parse_and_validate, prop. crunch; reflexivity.
Qed.

Lemma rate_limit_run clientId h :
  Strict.rate_limit w clientId h
  = (mkHeap (snd (Strict.checkRateLimit (now w) clientId (rateLimitStore h))) (outbox h),
     inr (fst (Strict.checkRateLimit (now w) clientId (rateLimitStore h)))).
Proof.
  unfold Strict.rate_limit. destruct (Strict.checkRateLimit _ _ _). reflexivity.
Qed.

(** The handler as one decision tree over what each gate reads. *)
Lemma handler_unfold req h :
  Strict.handler w req h =
  if negb (jsstring_eqb (method req) (js "POST"))
  then (h, inr (res_json false (Some (js "Method not allowed")) None 405))
  else
    match headers req with
    | None => (h, inr (res_json false (Some (js "Server error")) (Some (uuid w)) 500))
    | Some hs =>
        let checked := Strict.checkRateLimit (now w) (Strict.clientId_of hs) (rateLimitStore h) in
        let h1 := mkHeap (snd checked) (outbox h) in
        if negb (fst checked)
        then (h1, inr (res_json false (Some (js "Too many capture requests")) None 429))
        else
          match stringify_byteLength (rt w) (body req) with
          | inl _ => (h1, inr (res_json false (Some (js "Server error")) (Some (uuid w)) 500))
          | inr bodySize =>
              if 512000 <? bodySize
              then (h1, inr (res_json false (Some (js "Request too large")) None 413))
              else if missing (env_key w)
              then (h1, inr (res_json false (Some (js "Server configuration error.")) None 500))
              else
                match snd (Strict.parse_and_validate w req h1) with
                | inl _ => (h1, inr (res_json false (Some (js "Invalid request body")) None 400))
                | inr (transactionId, amountCents) =>
                    match Strict.captureTransaction w (env_key w) transactionId amountCents h1 with
                    | (h2, inr _) => (h2, inr (res_json true None (Some (uuid w)) 200))
                    | (h2, inl _) =>
                        (h2, inr (res_json false (Some (js "Capture process failed"))
                                           (Some (uuid w)) 500))
                    end
                end
          end
    end.
Proof.
  unfold Strict.handler, Strict.handler_try, Strict.MAX_REQUEST_SIZE.
  destruct (negb (jsstring_eqb (method req) (js "POST"))); [reflexivity|].
  destruct (headers req) as [hs|]; [|reflexivity].
  msimpl. rewrite rate_limit_run.
  set (checked := Strict.checkRateLimit _ _ _). set (h1 := mkHeap _ _).
  destruct (fst checked); [|reflexivity]. msimpl.
  destruct (stringify_byteLength (rt w) (body req)) as [e|bodySize]; [reflexivity|].
  msimpl.
  destruct (512000 <? bodySize); [reflexivity|].
  destruct (missing (env_key w)); [reflexivity|]. msimpl.
  pose proof (parse_and_validate_heap req h1) as Hheap.
  destruct (Strict.parse_and_validate w req h1) as [h2 [e|[tid amt]]]; cbn [fst snd] in *; subst h2.
  - reflexivity.
  - msimpl. destruct (Strict.captureTransaction w (env_key w) tid amt h1) as [h2 [e|b]]; reflexivity.
Qed.

Lemma captureTransaction_run key tid amt h :
  Strict.captureTransaction w key tid amt h =
  if missing key
  then (h, inl (new_Error (js "Server configuration error: Missing Secret Key.")))
  else if negb (truthy (JStr tid)) || negb (num_truthy amt) || num_leb amt (num_of_Z 0)
  then (h, inl (new_Error (js "Invalid input for capture: Missing transactionId or invalid amount.")))
  else
    let h' := mkHeap (rateLimitStore h) (outbox h ++ [strict_wire key tid amt]) in
    match gateway w (strict_wire key tid amt) with
    | HttpResponse st d =>
        if Strict.validateStatus st
        then
          if negb (truthy d) || negb (is_object d)
          then (h', inl (new_Error (js "Paymob Capture Request Failed: "
                   ++ js "Invalid capture response format")))
          else if (st =? 200) || (st =? 201)
          then (h', inr true)
          else (h', inl (new_Error (js "Paymob Capture Request Failed: "
                   ++ js "Paymob Capture Failed: "
                   ++ template (rt w)
                        (jor (opt_get d (js "message"))
                             (jor (opt_get d (js "detail")) (JStr (js "Capture failed")))))))
        else (h', inl (new_Error (js "Paymob Capture Request Failed: "
                 ++ message (Strict.on_error (Some st)))))
    | NoResponse _ =>
        (h', inl (new_Error (js "Paymob Capture Request Failed: "
            ++ js "Capture request failed")))
    end.
Proof.
  unfold Strict.captureTransaction, Strict.secureAxios_post, Strict.on_response, strict_wire.
  destruct (missing key); [reflexivity|].
  destruct (_ || _ || _); [reflexivity|].
  msimpl. unfold send. cbn beta.
  destruct (gateway w _) as [st d|reason]; [|reflexivity].
  destruct (Strict.validateStatus st).
  - destruct (negb (truthy d) || negb (is_object d)) eqn:E; msimpl.
    + reflexivity.
    + rewrite E. destruct ((st =? 200) || (st =? 201)); msimpl; [reflexivity|].
      reflexivity.
  - msimpl. unfold Strict.on_error.
    repeat case_match; reflexivity.
Qed.

End StrictHandler.







Lemma handler_try_throws w req h h' e :
  Strict.handler_try w req h = (h', inl e) ->
  method req = js "POST"
  /\ (headers req = None
      \/ exists hs, headers req = Some hs
           /\ fst (Strict.checkRateLimit (now w) (Strict.clientId_of hs) (rateLimitStore h)) = true
           /\ exists e', stringify_byteLength (rt w) (body req) = inl e').
Proof.
  unfold Strict.handler_try, jsstring_eqb, Strict.MAX_REQUEST_SIZE.
  destruct (bool_decide (method req = js "POST")) eqn:Hm; cbn [negb]; [|discriminate].
  apply bool_decide_eq_true in Hm. intros H. split; [exact Hm|].
  destruct (headers req) as [hs|]; [right; exists hs; split; [reflexivity|]|left; reflexivity].
  revert H. msimpl. rewrite rate_limit_run.
  destruct (fst (Strict.checkRateLimit _ _ _)); cbn [negb]; msimpl; [|discriminate].
  destruct (stringify_byteLength (rt w) (body req)) as [e'|n]; [eauto|]. msimpl.
  destruct (512000 <? n); [discriminate|].
  destruct (missing (env_key w)); [discriminate|]. msimpl.
  destruct (Strict.parse_and_validate w req _) as [h2 [e2|[tid amt]]]; [discriminate|].
  msimpl. destruct (Strict.captureTransaction w _ tid amt h2) as [h3 [e3|b]]; discriminate.
Qed.

(** C8: the strict handler never throws: every invocation returns a
    response.  A fault that escapes the body of the outermost [try] is
    answered with status 500, [success: false], the error text
    [Server error] and the request id.  The faults that reach the outermost
    catch are those of reading the headers and of measuring the body. *)
Theorem outermost_catch (w : World) (req : Request) (h : Heap) :
  (exists h' r, Strict.handler w req h = (h', inr r))
  /\ (forall h' e, Strict.handler_try w req h = (h', inl e) ->
      Strict.handler w req h
      = (h', inr (mkResponse 500 false (Some (js "Server error")) (Some (uuid w)))))
  /\ ((exists h' e, Strict.handler_try w req h = (h', inl e)) <->
      method req = js "POST"
      /\ (headers req = None
          \/ exists hs, headers req = Some hs
               /\ fst (Strict.checkRateLimit (now w) (Strict.clientId_of hs) (rateLimitStore h)) = true
               /\ exists e', stringify_byteLength (rt w) (body req) = inl e')).
Proof.
  split; [|split].
  - unfold Strict.handler. msimpl.
    destruct (Strict.handler_try w req h) as [h' [e|r]]; eauto.
  - intros h' e H. unfold Strict.handler. msimpl. rewrite H. reflexivity.
  - split.
    + intros (h' & e & H). eapply handler_try_throws, H.
    + intros [Hm Hfault]. unfold Strict.handler_try, jsstring_eqb, Strict.MAX_REQUEST_SIZE.
      rewrite (bool_decide_eq_true_2 _ Hm). cbn [negb].
      destruct Hfault as [Hh|(hs & Hh & Hc & e' & Hs)]; rewrite Hh; msimpl.
      * eauto.
      * rewrite rate_limit_run, Hc. msimpl. rewrite Hs. msimpl. eauto.
Qed.

Lemma outermost_catch_witness :
  snd (Strict.handler (example_world (example_runtime strict_text strict_value)
                              (Some (js "sk_live")) friendly_gateway)
               (mkRequest (js "POST") (Some example_headers) JUndefined) empty_heap)
  = inr (mkResponse 500 false (Some (js "Server error"))
                    (Some (js "0b9f6a52-7c1e-4f0a-9d3b-5e2a8c417d66"))).
Proof.
  set (w := example_world _ _ _). set (req := mkRequest _ _ _).
  destruct (proj2 (proj2 (proj2 (outermost_catch w req empty_heap)))) as (h' & e & H).
  { split; [reflexivity|]. right. exists example_headers.
    split; [reflexivity|]. split; [vm_compute; reflexivity|]. eexists. reflexivity. }
  rewrite (proj1 (proj2 (outermost_catch w req empty_heap)) h' e H). reflexivity.
Defined.

Lemma captureTransaction_verdict w key tid amt h :
  match snd (Strict.captureTransaction w key tid amt h) with
  | inr b => b = true /\ capture_succeeds w key tid amt = true
  | inl _ => capture_succeeds w key tid amt = false
  end.
Proof.
  rewrite captureTransaction_run. unfold capture_succeeds, capture_ok, Strict.validateStatus.
  destruct (missing key); [reflexivity|].
  destruct (_ || _ || _); [reflexivity|]. cbn [negb andb]. cbv zeta.
  destruct (gateway w _) as [st d|reason]; [|reflexivity].
  destruct (st =? 200) eqn:E200; destruct (st =? 201) eqn:E201;
  destruct (200 <=? st) eqn:Elo; destruct (st <? 300) eqn:Ehi;
  destruct (truthy d); destruct (is_object d); cbn [negb orb andb snd]; auto; lia.
Qed.

(** C9: with everything else equal, and a gateway that answers the capture
    alike under both keys, two non-empty credentials give the same response
    of the strict handler. *)
Theorem response_independent_of_credential (r : Runtime) (clock : Z) (rid : jsstring)
    (gw : Outbound -> Transport) (k1 k2 : jsstring) (req : Request) (h : Heap)
    (Hk1 : k1 <> []) (Hk2 : k2 <> [])
    (Hgw : forall tid amt,
        gw (Capture (Some (js "Token " ++ k1)) None tid amt)
        = gw (Capture (Some (js "Token " ++ k2)) None tid amt)) :
  snd (Strict.handler (mkWorld r clock rid (Some k1) gw) req h)
  = snd (Strict.handler (mkWorld r clock rid (Some k2) gw) req h).
Proof.
  rewrite !handler_unfold. cbn [rt now uuid env_key gateway].
  destruct (negb _); [reflexivity|].
  destruct (headers req) as [hs|]; [|reflexivity]. cbv zeta.
  destruct (negb _); [reflexivity|].
  destruct (stringify_byteLength r (body req)) as [e|n]; [reflexivity|].
  destruct (512000 <? n); [reflexivity|].
  destruct k1 as [|c1 k1]; [congruence|]. destruct k2 as [|c2 k2]; [congruence|].
  cbn [missing].
  set (h1 := mkHeap _ _).
  change (Strict.parse_and_validate (mkWorld r clock rid (Some (c1 :: k1)) gw) req h1)
    with (Strict.parse_and_validate (mkWorld r clock rid (Some (c2 :: k2)) gw) req h1).
  destruct (snd (Strict.parse_and_validate _ req h1)) as [e|[tid amt]]; [reflexivity|].
  pose proof (captureTransaction_verdict (mkWorld r clock rid (Some (c1 :: k1)) gw)
                (Some (c1 :: k1)) tid amt h1) as V1.
  pose proof (captureTransaction_verdict (mkWorld r clock rid (Some (c2 :: k2)) gw)
                (Some (c2 :: k2)) tid amt h1) as V2.
  assert (Hsame : capture_succeeds (mkWorld r clock rid (Some (c1 :: k1)) gw) (Some (c1 :: k1)) tid amt
                  = capture_succeeds (mkWorld r clock rid (Some (c2 :: k2)) gw) (Some (c2 :: k2)) tid amt).
  { unfold capture_succeeds, strict_wire. cbn [missing gateway default from_option id].
    rewrite (Hgw tid amt). reflexivity. }
  destruct (Strict.captureTransaction _ (Some (c1 :: k1)) tid amt h1) as [h2 [e1|b1]];
  destruct (Strict.captureTransaction _ (Some (c2 :: k2)) tid amt h1) as [h3 [e2|b2]];
  cbn [snd] in *; try reflexivity.
  - destruct V2 as [_ V2]. congruence.
  - destruct V1 as [_ V1]. congruence.
Qed.

Lemma response_independent_of_credential_witness :
  snd (Strict.handler (mkWorld (example_runtime strict_text strict_value) 1700000000000
                        (js "0b9f6a52-7c1e-4f0a-9d3b-5e2a8c417d66")
                        (Some (js "sk_live_2f81")) friendly_gateway)
               strict_request empty_heap)
  = snd (Strict.handler (mkWorld (example_runtime strict_text strict_value) 1700000000000
                          (js "0b9f6a52-7c1e-4f0a-9d3b-5e2a8c417d66")
                          (Some (js "sk_test_77c0")) friendly_gateway)
                 strict_request empty_heap).
Proof.
  apply response_independent_of_credential.
  - discriminate.
  - discriminate.
  - reflexivity.
Defined.

(** ** Gateway client of the strict and of the token revision *)

Lemma capturable_guard tid amt :
  capturable tid amt ->
  negb (truthy (JStr tid)) || negb (num_truthy amt) || num_leb amt (num_of_Z 0) = false.
Proof.
  intros (Htid & Hamt & Hpos). rewrite Hamt, Hpos.
  destruct tid; [congruence|reflexivity].
Qed.

Lemma token_capture_run w authToken tid amt h :
  capturable tid amt ->
  Token.captureTransaction w authToken tid amt h =
  let h' := mkHeap (rateLimitStore h) (outbox h ++ [token_wire authToken tid amt]) in
  match gateway w (token_wire authToken tid amt) with
  | HttpResponse st d =>
      if (200 <=? st) && (st <? 300)
      then (h', inr true)
      else (h', inl (new_Error (js "Paymob Capture Request Failed: "
               ++ template (rt w)
                    (jor (opt_get d (js "detail"))
                         (jor (opt_get d (js "message"))
                              (JStr (axios_status_message (rt w) st)))))))
  | NoResponse reason =>
      (h', inl (new_Error (js "Paymob Capture Request Failed: "
          ++ reason)))
  end.
Proof.
  intros Hcap. unfold Token.captureTransaction, axios_post, token_wire.
  rewrite (capturable_guard _ _ Hcap).
  msimpl. unfold send. cbn beta.
  destruct (gateway w _) as [st d|reason]; [|reflexivity].
  destruct ((200 <=? st) && (st <? 300)) eqn:E; msimpl.
  - rewrite E. reflexivity.
  - reflexivity.
Qed.

Lemma strict_capture_run w key tid amt h :
  missing key = false -> capturable tid amt ->
  Strict.captureTransaction w key tid amt h =
  let h' := mkHeap (rateLimitStore h) (outbox h ++ [strict_wire key tid amt]) in
  match gateway w (strict_wire key tid amt) with
  | HttpResponse st d =>
      if Strict.validateStatus st
      then
        if negb (truthy d) || negb (is_object d)
        then (h', inl (new_Error (js "Paymob Capture Request Failed: "
                 ++ js "Invalid capture response format")))
        else if (st =? 200) || (st =? 201)
        then (h', inr true)
        else (h', inl (new_Error (js "Paymob Capture Request Failed: "
                 ++ js "Paymob Capture Failed: "
                 ++ template (rt w)
                      (jor (opt_get d (js "message"))
                           (jor (opt_get d (js "detail")) (JStr (js "Capture failed")))))))
      else (h', inl (new_Error (js "Paymob Capture Request Failed: "
               ++ message (Strict.on_error (Some st)))))
  | NoResponse _ =>
      (h', inl (new_Error (js "Paymob Capture Request Failed: "
          ++ js "Capture request failed")))
  end.
Proof.
  intros Hkey Hcap. rewrite captureTransaction_run, Hkey, (capturable_guard _ _ Hcap).
  reflexivity.
Qed.

(** C4, as amended: with the preconditions of a capture met, the strict
    revision succeeds exactly when the gateway answers 200 or 201 with an
    object (or array) for a body, and the token revision exactly when the
    gateway answers any 2xx status, whatever the body; every other outcome,
    a transport failure included, is an error whose message starts with the
    prefix of the gateway client. *)
Theorem capture_success_by_revision (w : World) (tid : jsstring) (amt : Num) (h : Heap)
    (Hcap : capturable tid amt) :
  (forall key, missing key = false ->
     let out := Strict.captureTransaction w key tid amt h in
     (snd out = inr true <->
      exists st d, gateway w (strict_wire key tid amt) = HttpResponse st d
                   /\ (st = 200 \/ st = 201) /\ truthy d = true /\ is_object d = true)
     /\ (snd out = inr true \/ fails_with_message out))
  /\ (forall authToken,
     let out := Token.captureTransaction w authToken tid amt h in
     (snd out = inr true <->
      exists st d, gateway w (token_wire authToken tid amt) = HttpResponse st d
                   /\ 200 <= st < 300)
     /\ (snd out = inr true \/ fails_with_message out)).
Proof.
  split.
  - intros key Hkey out. subst out. rewrite (strict_capture_run w key tid amt h Hkey Hcap).
    cbv zeta. unfold fails_with_message.
    destruct (gateway w _) as [st d|reason].
    + destruct (Strict.validateStatus st) eqn:Ev.
      * destruct (negb (truthy d) || negb (is_object d)) eqn:Eobj.
        { split; [|right; eexists; reflexivity].
          split; [discriminate|].
          intros (st' & d' & Heq & Hst & Htd & Hod). injection Heq as <- <-.
          rewrite Htd, Hod in Eobj. discriminate. }
        apply orb_false_iff in Eobj as [Htd Hod].
        apply negb_false_iff in Htd. apply negb_false_iff in Hod.
        destruct ((st =? 200) || (st =? 201)) eqn:Est.
        { split; [|left; reflexivity].
          split; [|reflexivity]. intros _. exists st, d.
          apply orb_true_iff in Est. rewrite !Z.eqb_eq in Est. auto. }
        split; [|right; eexists; reflexivity].
        split; [discriminate|].
        intros (st' & d' & Heq & Hst & _). injection Heq as <- <-.
        apply orb_false_iff in Est. rewrite !Z.eqb_neq in Est. lia.
      * split; [|right; eexists; reflexivity].
        split; [discriminate|].
        intros (st' & d' & Heq & Hst & _). injection Heq as <- <-.
        unfold Strict.validateStatus in Ev. apply andb_false_iff in Ev.
        rewrite Z.leb_gt, Z.ltb_ge in Ev. lia.
    + split; [|right; eexists; reflexivity].
      split; [discriminate|]. intros (st & d & Heq & _). discriminate.
  - intros authToken out. subst out. rewrite (token_capture_run w authToken tid amt h Hcap).
    cbv zeta. unfold fails_with_message.
    destruct (gateway w _) as [st d|reason].
    + destruct ((200 <=? st) && (st <? 300)) eqn:Ev.
      * split; [|left; reflexivity].
        split; [|reflexivity]. intros _. exists st, d.
        apply andb_true_iff in Ev. rewrite Z.leb_le, Z.ltb_lt in Ev. auto.
      * split; [|right; eexists; reflexivity].
        split; [discriminate|].
        intros (st' & d' & Heq & Hst). injection Heq as <- <-.
        apply andb_false_iff in Ev. rewrite Z.leb_gt, Z.ltb_ge in Ev. lia.
    + split; [|right; eexists; reflexivity].
      split; [discriminate|]. intros (st & d & Heq & _). discriminate.
Qed.

Lemma capture_success_by_revision_witness :
  snd (Strict.captureTransaction (strict_world friendly_gateway) sample_key
                          (js "TXN12345") (num_of_Z 10000) empty_heap) = inr true.
Proof.
  assert (Hcap : capturable (js "TXN12345") (num_of_Z 10000))
    by (repeat split; discriminate).
  apply (proj1 (proj1 (capture_success_by_revision (strict_world friendly_gateway)
                         (js "TXN12345") (num_of_Z 10000) empty_heap Hcap)
                      sample_key eq_refl)).
  eexists 201, _. split; [reflexivity|]. split; [right; reflexivity|]. split; reflexivity.
Defined.

(** C4 fails as stated: the token revision takes a 202 answer whose body is
    no JSON for a success. *)
Lemma token_capture_accepts_202 :
  gateway (tiny_world accepting_gateway)
          (token_wire (JStr (js "tok_9f3a")) (js "TXN12345") (num_of_Z 10000))
  = HttpResponse 202 (JStr (js "Accepted"))
  /\ snd (Token.captureTransaction (tiny_world accepting_gateway) (JStr (js "tok_9f3a"))
                                   (js "TXN12345") (num_of_Z 10000) empty_heap)
     = inr true.
Proof. split; reflexivity. Qed.




(** ** Angle brackets in the identifier *)

Lemma strip_angles_no_angle s : no_angle (strip_angles s).
Proof.
  unfold no_angle, strip_angles. split; intros H; apply filter_In in H as [_ H];
    vm_compute in H; discriminate.
Qed.

Lemma id_policy_no_angle s : id_policy s -> no_angle s.
Proof.
  intros [_ Hs]. rewrite List.Forall_forall in Hs.
  split; intros H; specialize (Hs _ H); unfold id_char in Hs; lia.
Qed.

Lemma strict_parse_policy w req h tid amt :
  snd (Strict.parse_and_validate w req h) = inr (tid, amt) -> id_policy tid.
Proof.
  unfold Strict.parse_and_validate, prop. intros H.
  destruct (negb (truthy (body req))); msimpl; [discriminate|].
  revert H. msimpl.
  destruct (JSON_parse (rt w) (body req)) as [e|bd]; msimpl; [discriminate|].
  assert (Hgoal : forall v,
    snd (let (h', s) := lift (Strict.validateTransactionId v) h in
         match s with
         | inl e => (h', inl e)
         | inr a => (let* amt0 := prop w bd (js "amountCents") in
                     let* amountCents := lift (Strict.validateAmount amt0) in
                     ret (a, amountCents)) h'
         end) = inr (tid, amt) -> id_policy tid).
  { intros v. destruct (Strict.validateTransactionId v) as [e|t] eqn:Ev; msimpl; [discriminate|].
    apply validateTransactionId_inv in Ev as [_ Hp].
    unfold prop. destruct bd; msimpl; try discriminate;
      (destruct (Strict.validateAmount _); msimpl; [discriminate|]);
      intros H; injection H as <- _; exact Hp. }
  destruct bd; msimpl; try discriminate; apply Hgoal.
Qed.

Lemma strict_capture_outbox w key tid amt h :
  outbox (fst (Strict.captureTransaction w key tid amt h)) = outbox h
  \/ outbox (fst (Strict.captureTransaction w key tid amt h)) = outbox h ++ [strict_wire key tid amt].
Proof.
  rewrite captureTransaction_run.
  repeat case_match; cbn [fst outbox]; auto.
Qed.

Lemma strict_handler_outbox w req h o :
  In o (outbox (fst (Strict.handler w req h))) ->
  In o (outbox h) \/ exists a t tid amt, o = Capture a t tid amt /\ id_policy tid.
Proof.
  rewrite handler_unfold.
  destruct (negb _); [auto|].
  destruct (headers req) as [hs|]; [|auto]. cbv zeta.
  destruct (negb _); [auto|].
  destruct (stringify_byteLength _ _) as [e|n]; [auto|].
  destruct (512000 <? n); [auto|].
  destruct (missing (env_key w)); [auto|].
  set (h1 := mkHeap _ _).
  destruct (snd (Strict.parse_and_validate w req h1)) as [e|[tid amt]] eqn:Ep; [auto|].
  apply strict_parse_policy in Ep.
  pose proof (strict_capture_outbox w (env_key w) tid amt h1) as Hout.
  destruct (Strict.captureTransaction w (env_key w) tid amt h1) as [h2 [e|b]];
    cbn [fst] in *; destruct Hout as [-> | ->]; cbn [outbox h1]; auto;
    rewrite in_app_iff; (intros [H|[<-|[]]]; [auto|]);
    right; unfold strict_wire; eauto 10.
Qed.

Lemma bearer_parse w req h :
  fst (Bearer.parse_and_validate w req h) = h
  /\ forall tid amt, snd (Bearer.parse_and_validate w req h) = inr (tid, amt) -> no_angle tid.
Proof.
  assert (Hid : forall v r, Bearer.validateTransactionId v = inr r ->
                            no_angle (Bearer.string_of r)).
  { intros v r. unfold Bearer.validateTransactionId, Bearer.sanitizeInput.
    destruct v; try discriminate. case_match; [discriminate|].
    intros [= <-]. apply (strip_angles_no_angle (trim _)). }
  unfold Bearer.parse_and_validate, prop.
  destruct (negb _); msimpl; [split; [reflexivity|intros; discriminate]|].
  destruct (JSON_parse _ _) as [e|bd]; msimpl; [split; [reflexivity|intros; discriminate]|].
  destruct bd; msimpl; try (split; [reflexivity|intros; discriminate]);
    (destruct (Bearer.validateTransactionId _) as [e|r] eqn:Er; msimpl;
     [split; [reflexivity|intros; discriminate]|]);
    (destruct (Bearer.validateAmount _) as [e|a]; msimpl;
     [split; [reflexivity|intros; discriminate]|]);
    (split; [reflexivity|intros ? ? [= <- <-]; eapply Hid, Er]).
Qed.

Lemma bearer_capture_outbox w key tid amt h :
  outbox (fst (Bearer.captureTransaction w key tid amt h)) = outbox h
  \/ exists a, outbox (fst (Bearer.captureTransaction w key tid amt h))
               = outbox h ++ [Capture a None tid amt].
Proof.
  unfold Bearer.captureTransaction, axios_post, send.
  crunch; cbn [fst outbox]; eauto.
Qed.

Lemma bearer_handler_outbox w req h o :
  In o (outbox (fst (Bearer.handler w req h))) ->
  In o (outbox h) \/ exists a t tid amt, o = Capture a t tid amt /\ no_angle tid.
Proof.
  unfold Bearer.handler.
  destruct (missing (env_key w)); [auto|]. msimpl.
  destruct (bearer_parse w req h) as [Hh Hp].
  destruct (Bearer.parse_and_validate w req h) as [h1 [e|[tid amt]]];
    cbn [fst snd] in *; subst h1; msimpl; [auto|].
  specialize (Hp tid amt eq_refl).
  pose proof (bearer_capture_outbox w (env_key w) tid (Math_round (times100 amt)) h) as Hout.
  destruct (Bearer.captureTransaction w (env_key w) tid _ h) as [h2 [e|b]];
    cbn [fst] in *; msimpl; (destruct Hout as [-> | [a ->]]; [auto|]);
    rewrite in_app_iff; (intros [H|[<-|[]]]; [auto|]); right; eauto 10.
Qed.

Lemma angle_breaks_policy s : In 60%N s \/ In 62%N s -> ~ id_policy s.
Proof.
  intros Hangle Hp. destruct (id_policy_no_angle s Hp) as [H60 H62]. tauto.
Qed.

(** C3, as amended: an identifier with an angle bracket is rejected by the
    strict revision, at the checks that run on the raw input before
    sanitization; the bearer revision checks the length of the raw input and
    then returns the trimmed input without its angle brackets; no capture
    request of either handler carries an identifier with an angle bracket. *)
Theorem angle_brackets_never_reach_gateway (s : jsstring)
    (Hangle : In 60%N s \/ In 62%N s) :
  (exists e, Strict.validateTransactionId (JStr s) = inl e
             /\ (message e = js "Transaction ID must be 5-50 characters"
                 \/ message e = js "Transaction ID contains invalid characters"))
  /\ ((length s <= 100)%nat ->
      Bearer.validateTransactionId (JStr s) = inr (JStr (strip_angles (trim s))))
  /\ ((100 < length s)%nat -> exists e, Bearer.validateTransactionId (JStr s) = inl e)
  /\ no_angle (strip_angles (trim s))
  /\ (forall w req h o,
        In o (outbox (fst (Strict.handler w req h))) ->
        In o (outbox h) \/ exists a t tid amt, o = Capture a t tid amt /\ no_angle tid)
  /\ (forall w req h o,
        In o (outbox (fst (Bearer.handler w req h))) ->
        In o (outbox h) \/ exists a t tid amt, o = Capture a t tid amt /\ no_angle tid).
Proof.
  split; [|split; [|split; [|split; [|split]]]].
  - destruct (Strict.validateTransactionId (JStr s)) as [e|t] eqn:E.
    + exists e. split; [reflexivity|].
      unfold Strict.validateTransactionId in E.
      destruct ((length s <? 5)%nat || (50 <? length s)%nat).
      { injection E as <-. left. reflexivity. }
      destruct (negb (Strict.test_id_regex s)) eqn:Et.
      { injection E as <-. right. reflexivity. }
      exfalso. apply negb_false_iff in Et.
      unfold Strict.test_id_regex in Et. destruct s as [|c s]; [discriminate|].
      apply forallb_isIdChar in Et. rewrite List.Forall_forall in Et.
      destruct Hangle as [H|H]; specialize (Et _ H); unfold id_char in Et; lia.
    + apply validateTransactionId_inv in E as [Heq Hp]. injection Heq as <-.
      destruct (angle_breaks_policy s Hangle Hp).
  - intros Hlen. unfold Bearer.validateTransactionId, Bearer.sanitizeInput, strip_angles.
    destruct s as [|c s]; [destruct Hangle as [[]|[]]|].
    destruct (100 <? length (c :: s))%nat eqn:E; [apply Nat.ltb_lt in E; lia|].
    reflexivity.
  - intros Hlen. unfold Bearer.validateTransactionId.
    destruct (100 <? length s)%nat eqn:E; [|apply Nat.ltb_ge in E; lia].
    rewrite orb_true_r. eauto.
  - apply strip_angles_no_angle.
  - intros w req h o Ho. destruct (strict_handler_outbox w req h o Ho) as [H|(a & t & tid & amt & -> & Hp)].
    + left. exact H.
    + right. exists a, t, tid, amt. split; [reflexivity|apply id_policy_no_angle, Hp].
  - intros w req h o Ho. apply (bearer_handler_outbox w req h o Ho).
Qed.

Lemma angle_brackets_never_reach_gateway_witness :
  exists e, Strict.validateTransactionId (JStr (js "<TXN12345>")) = inl e
            /\ (message e = js "Transaction ID must be 5-50 characters"
                \/ message e = js "Transaction ID contains invalid characters").
Proof.
  apply (angle_brackets_never_reach_gateway (js "<TXN12345>")).
  left. vm_compute. tauto.
Defined.

(** C3 fails as stated: with its brackets stripped, [<TXN12345>] satisfies
    the strict policy, yet the strict revision rejects it, for the character
    check reads the raw input; and the bearer revision passes [<>] through its
    length check and returns the empty string. *)
Lemma angle_brackets_checked_before_stripping :
  strip_angles (js "<TXN12345>") = js "TXN12345"
  /\ Strict.validateTransactionId (JStr (js "TXN12345")) = inr (js "TXN12345")
  /\ Strict.validateTransactionId (JStr (js "<TXN12345>"))
     = inl (new_Error (js "Transaction ID contains invalid characters"))
  /\ Bearer.validateTransactionId (JStr (js "<>")) = inr (JStr []).
Proof. repeat split; vm_compute; reflexivity. Qed.

(** ** Amounts below half a piaster in the major-unit revisions *)

Lemma Qfloor_unit x : (0 <= x)%Q -> (x < 1)%Q -> Qfloor x = 0.
Proof.
  intros H0 H1.
  pose proof (Qfloor_le x) as Hlo. pose proof (Qlt_floor x) as Hhi.
  assert (Hlt : (inject_Z (Qfloor x) < inject_Z 1)%Q) by (eapply Qle_lt_trans; eassumption).
  assert (Hgt : (inject_Z 0 < inject_Z (Qfloor x + 1))%Q) by (eapply Qle_lt_trans; eassumption).
  rewrite <- Zlt_Qlt in Hlt, Hgt. lia.
Qed.

Lemma pow2_pos (p : positive) : Z.pos (2 ^ p) = 2 ^ Z.pos p.
Proof. rewrite Pos2Z.inj_pow. reflexivity. Qed.

Lemma pow2_split (a b : Z) : 0 <= a <= b -> 2 ^ b = 2 ^ a * 2 ^ (b - a) /\ 1 <= 2 ^ (b - a).
Proof.
  intros H. split.
  - rewrite <- Z.pow_add_r by lia. f_equal. lia.
  - assert (0 < 2 ^ (b - a)) by (apply Z.pow_pos_nonneg; lia). lia.
Qed.

(** A binary64 number below 0.005 is at most the largest binary64 number
    below 0.005, [5764607523034234 * 2^-60]. *)
Lemma binary64_below_half_piaster q :
  is_binary64 q -> (q < 1 # 200)%Q -> (q <= 5764607523034234 # 2 ^ 60)%Q.
Proof.
  intros (m & e & Hm & He & Hq) Hsmall. rewrite Hq in *. clear Hq q.
  unfold ldexp in *. destruct e as [|p|p].
  - unfold Qlt, Qle in *. cbn in *. lia.
  - assert (HP : 0 < 2 ^ Z.pos p) by (apply Z.pow_pos_nonneg; lia).
    unfold Qlt, Qle, inject_Z in *. cbn [Qnum Qden] in *.
    set (N := m * 2 ^ Z.pos p) in *. lia.
  - unfold Qlt, Qle in *. cbn [Qnum Qden] in *. rewrite (pow2_pos p) in *.
    change (Z.pos (2 ^ 60)) with (2 ^ 60).
    destruct (Z_le_gt_dec (Z.pos p) 60) as [Hp|Hp].
    + destruct (pow2_split (Z.pos p) 60 ltac:(lia)) as [Hsplit HK].
      set (P := 2 ^ Z.pos p) in *. set (K := 2 ^ (60 - Z.pos p)) in *.
      assert (HP : 0 < P) by (apply Z.pow_pos_nonneg; lia).
      rewrite Hsplit.
      assert (HN : m * K * 200 < 2 ^ 60) by (rewrite Hsplit; nia).
      assert (HN' : m * K <= 5764607523034234) by (change (2 ^ 60) with 1152921504606846976 in HN; lia).
      nia.
    + destruct (pow2_split 61 (Z.pos p) ltac:(lia)) as [Hsplit HK].
      set (P := 2 ^ Z.pos p) in *. set (K := 2 ^ (Z.pos p - 61)) in *.
      change (2 ^ 60) with 1152921504606846976.
      change (2 ^ 61) with 2305843009213693952 in Hsplit.
      change (2 ^ 53) with 9007199254740992 in Hm.
      assert (m < 9007199254740992) by lia.
      rewrite Hsplit. nia.
Qed.

Lemma binary64_exponent_small y :
  (0 <= y)%Q -> (y < 1 # 2)%Q -> -1074 <= binary64_exponent y <= -54.
Proof.
  intros Hpos Hhalf. unfold binary64_exponent.
  rewrite (Qabs_pos y Hpos).
  set (L := Qfloor (y * inject_Z (2 ^ 1074))).
  assert (HL0 : 0 <= L).
  { unfold L. change 0 with (Qfloor 0). apply Qfloor_resp_le.
    apply Qmult_le_0_compat; [exact Hpos|]. discriminate. }
  assert (HL1 : L < 2 ^ 1073).
  { rewrite Zlt_Qlt. eapply Qle_lt_trans; [apply Qfloor_le|].
    setoid_replace (inject_Z (2 ^ 1073)) with ((1 # 2) * inject_Z (2 ^ 1074))%Q
      using relation Qeq by (vm_compute; reflexivity).
    apply Qmult_lt_compat_r; [reflexivity|exact Hhalf]. }
  assert (Hlog : Z.log2 L <= 1072).
  { destruct (Z.eq_dec L 0) as [->|Hne]; [cbn; lia|].
    assert (Z.log2 L < 1073) by (apply Z.log2_lt_pow2; lia). lia. }
  lia.
Qed.

Lemma round_half_even_bounds x :
  (0 <= x)%Q -> 0 <= round_half_even x /\ (inject_Z (round_half_even x) <= x + (1 # 2))%Q.
Proof.
  intros Hpos. unfold round_half_even.
  pose proof (Qfloor_le x) as Hlo.
  assert (Hf : 0 <= Qfloor x) by (change 0 with (Qfloor 0); apply Qfloor_resp_le, Hpos).
  set (f := Qfloor x) in *.
  assert (Hsame : (inject_Z f <= x + (1 # 2))%Q).
  { eapply Qle_trans; [exact Hlo|]. rewrite <- (Qplus_0_r x) at 1.
    apply Qplus_le_compat; [apply Qle_refl|discriminate]. }
  assert (Hup : (1 # 2 <= x - inject_Z f)%Q -> (inject_Z (f + 1) <= x + (1 # 2))%Q).
  { intros H. rewrite inject_Z_plus.
    apply (Qplus_le_compat _ _ (inject_Z f + (1 # 2)) (inject_Z f + (1 # 2))) in H;
      [|apply Qle_refl].
    setoid_replace (x - inject_Z f + (inject_Z f + (1 # 2)))%Q with (x + (1 # 2))%Q using relation Qeq in H by ring.
    setoid_replace ((1 # 2) + (inject_Z f + (1 # 2)))%Q with (inject_Z f + inject_Z 1)%Q using relation Qeq in H by ring.
    exact H. }
  destruct (x - inject_Z f ?= 1 # 2)%Q eqn:E.
  - apply Qeq_alt in E. destruct (Z.even f); (split; [lia|]); [exact Hsame|].
    apply Hup. rewrite E. apply Qle_refl.
  - split; [lia|exact Hsame].
  - apply Qgt_alt in E. split; [lia|]. apply Hup, Qlt_le_weak, E.
Qed.

(** A positive product of at most a hundred times the largest binary64
    number below 0.005 is rounded to a number below a half. *)
Lemma round_binary64_below_half y :
  (0 < y)%Q -> (y <= (5764607523034234 # 2 ^ 60) * 100)%Q ->
  exists v, round_binary64 y = Fin v /\ (0 <= v)%Q /\ (v < 1 # 2)%Q.
Proof.
  intros Hpos Hle.
  assert (Hhalf : (y < 1 # 2)%Q) by (eapply Qle_lt_trans; [exact Hle|reflexivity]).
  pose proof (binary64_exponent_small y (Qlt_le_weak _ _ Hpos) Hhalf) as He.
  unfold round_binary64.
  destruct (binary64_exponent y) as [|p|p]; try lia.
  cbn [ldexp]. cbv zeta.
  assert (Hx : (0 <= y / (1 # 2 ^ p))%Q).
  { apply Qlt_le_weak, Qlt_shift_div_l; [reflexivity|]. rewrite Qmult_0_l. exact Hpos. }
  destruct (round_half_even_bounds _ Hx) as [Hm0 Hm1].
  set (m := round_half_even (y / (1 # 2 ^ p))) in *.
  assert (H2m : 2 * m < Z.pos (2 ^ p)).
  { rewrite pow2_pos.
    destruct (pow2_split 54 (Z.pos p) ltac:(lia)) as [Hsplit HK].
    destruct y as [a b]. unfold Qle, Qlt, Qdiv, Qmult, Qplus, Qinv in *.
    cbn [Qnum Qden] in *. rewrite pow2_pos in Hm1.
    set (P := 2 ^ Z.pos p) in *. set (K := 2 ^ (Z.pos p - 54)) in *.
    change (2 ^ 54) with 18014398509481984 in Hsplit.
    change (Z.pos (2 ^ 60 * 1)) with 1152921504606846976 in Hle.
    rewrite ?Pos2Z.inj_mul in *. 
    assert (Hb : 0 < Z.pos b) by lia. set (B := Z.pos b) in *.
    cbn [inject_Z Qnum Qden] in Hm1.
    assert (H1 : a * P * 128 <= 1152921504606846800 * K * B) by (rewrite Hsplit; nia).
    assert (H2 : 128 * m * B <= (1152921504606846800 * K + 64) * B) by lia.
    assert (H3 : 128 * m <= 1152921504606846800 * K + 64)
      by (apply (Z.mul_le_mono_pos_r _ _ B); [exact Hb|exact H2]).
    lia. }
  assert (Hov : Qle_bool (inject_Z (2 ^ 1024)) (Qabs (m # 2 ^ p)) = false).
  { apply Bool.not_true_iff_false. intros H. apply Qle_bool_iff in H.
    rewrite Qabs_pos in H by (unfold Qle; cbn; lia).
    assert (Hone : (m # 2 ^ p < 1)%Q) by (unfold Qlt; cbn; lia).
    apply (Qlt_not_le _ _ Hone). eapply Qle_trans; [|exact H]. discriminate. }
  rewrite Hov. exists (m # 2 ^ p). split; [reflexivity|].
  split; unfold Qle, Qlt; cbn; lia.
Qed.

Lemma round_tiny q : is_binary64 q -> (0 < q)%Q -> (q < 1 # 200)%Q ->
  Math_round (times100 (Fin q)) = num_of_Z 0.
Proof.
  intros Hnum Hpos Hsmall.
  pose proof (binary64_below_half_piaster q Hnum Hsmall) as Hle.
  destruct (round_binary64_below_half (q * 100)) as (v & Hv & Hv0 & Hv1).
  - rewrite <- (Qmult_0_l 100). apply Qmult_lt_compat_r; [reflexivity|exact Hpos].
  - apply Qmult_le_compat_r; [exact Hle|discriminate].
  - unfold times100, Math_round, num_of_Z. rewrite Hv.
    rewrite Qfloor_unit; [reflexivity| |].
    + apply (Qplus_le_compat 0 v 0 (1 # 2)) in Hv0; [exact Hv0|discriminate].
    + apply (Qplus_lt_le_compat v (1 # 2) (1 # 2) (1 # 2)) in Hv1; [|apply Qle_refl].
      eapply Qlt_le_trans; [exact Hv1|]. discriminate.
Qed.

Lemma positive_not_leb q : (0 < q)%Q -> num_leb (Fin q) (num_of_Z 0) = false.
Proof.
  intros Hpos. apply not_true_iff_false. intros H.
  apply num_leb_Fin in H. apply (Qlt_not_le _ _ Hpos H).
Qed.

Lemma has_property_is_object bodyData k s :
  get bodyData k = JStr s -> exists props, bodyData = JObj props.
Proof.
  destruct bodyData; try discriminate. eauto.
Qed.

Lemma loose_parse_tiny w req h bodyData c s q :
  truthy (body req) = true ->
  JSON_parse (rt w) (body req) = inr bodyData ->
  get bodyData (js "transactionId") = JStr (c :: s) ->
  get bodyData (js "amount") = JNum (Fin q) ->
  (0 < q)%Q ->
  Loose.parse_and_check w req h = (h, inr (c :: s, Fin q)).
Proof.
  intros Hbody Hparse Hid Hamount Hpos.
  unfold Loose.parse_and_check, prop. rewrite Hbody, Hparse. msimpl.
  destruct (has_property_is_object _ _ _ Hid) as [props ->]. msimpl.
  rewrite Hid, Hamount, (positive_not_leb q Hpos). reflexivity.
Qed.

Lemma loose_getAuthToken_run w h :
  missing (env_key w) = false ->
  exists v, Loose.getAuthToken w (env_key w) h = (after_auth w h, inr v).
Proof.
  intros Hkey. unfold Loose.getAuthToken, axios_post, send, after_auth. rewrite Hkey.
  msimpl. destruct (gateway w _) as [st d|reason]; msimpl; [|eauto].
  destruct ((200 <=? st) && (st <? 300)); msimpl; [|eauto].
  destruct (truthy d && truthy (get d (js "token"))); eauto.
Qed.

Lemma token_getAuthToken_run w h :
  missing (env_key w) = false ->
  exists r, Token.getAuthToken w (env_key w) h = (after_auth w h, r).
Proof.
  intros Hkey. unfold Token.getAuthToken, axios_post, send, after_auth. rewrite Hkey.
  msimpl. destruct (gateway w _) as [st d|reason]; msimpl; [|eauto].
  destruct ((200 <=? st) && (st <? 300)); msimpl; [|eauto].
  destruct (truthy d && truthy (get d (js "token"))); eauto.
Qed.

(** C10, as amended: in the major-unit revisions a body with an amount
    strictly between 0 and 0.005, a number of the engine, passes the body
    checks, rounds to 0 minor units ([Math.round] of the product as the
    engine rounds it), and is refused by [captureTransaction] without a
    capture request on the wire; the handler answers 500 with
    [success: false], not 400.  In the two token revisions the token exchange
    is on the wire by then; in the bearer revision nothing is. *)
Theorem tiny_amount_is_a_server_error (w : World) (req : Request) (h : Heap)
    (bodyData : JsValue) (c : N) (s : jsstring) (q : Q)
    (Hkey : missing (env_key w) = false)
    (Hbody : truthy (body req) = true)
    (Hparse : JSON_parse (rt w) (body req) = inr bodyData)
    (Hid : get bodyData (js "transactionId") = JStr (c :: s))
    (Hamount : get bodyData (js "amount") = JNum (Fin q))
    (Hnum : is_binary64 q)
    (Hpos : (0 < q)%Q) (Hsmall : (q < 1 # 200)%Q) :
  Math_round (times100 (Fin q)) = num_of_Z 0
  /\ Loose.parse_and_check w req h = (h, inr (c :: s, Fin q))
  /\ Token.parse_and_check w req h = (h, inr (c :: s, Fin q))
  /\ (forall authToken h1,
        Loose.captureTransaction w authToken (c :: s) (num_of_Z 0) h1 = (h1, inr false))
  /\ (forall authToken h1, exists e,
        Token.captureTransaction w authToken (c :: s) (num_of_Z 0) h1 = (h1, inl e))
  /\ (exists text,
        Loose.handler w req h
        = (after_auth w h, inr (mkResponse 500 false (Some text) None)))
  /\ (exists text,
        Token.handler w req h
        = (after_auth w h, inr (mkResponse 500 false (Some text) None)))
  /\ ((length (c :: s) <= 100)%nat ->
      exists text,
        Bearer.handler w req h = (h, inr (mkResponse 500 false (Some text) None))).
Proof.
  pose proof (round_tiny q Hnum Hpos Hsmall) as Hround.
  pose proof (loose_parse_tiny w req h bodyData c s q Hbody Hparse Hid Hamount Hpos) as Hl.
  assert (Ht : Token.parse_and_check w req h = (h, inr (c :: s, Fin q))) by exact Hl.
  split; [exact Hround|]. split; [exact Hl|]. split; [exact Ht|].
  split; [reflexivity|]. split; [intros; eexists; reflexivity|].
  split; [|split].
  - unfold Loose.handler. rewrite Hkey. msimpl. rewrite Hl. msimpl. rewrite Hround.
    destruct (loose_getAuthToken_run w h Hkey) as [v Hv]. rewrite Hv. msimpl.
    destruct (truthy v); msimpl; eexists; reflexivity.
  - unfold Token.handler. msimpl. rewrite Ht. msimpl. rewrite Hround.
    destruct (token_getAuthToken_run w h Hkey) as [[e|v] Hv]; rewrite Hv; msimpl.
    + destruct (message e); eexists; reflexivity.
    + eexists; reflexivity.
  - intros Hlen. unfold Bearer.handler. rewrite Hkey. msimpl.
    unfold Bearer.parse_and_validate, prop. rewrite Hbody, Hparse. msimpl.
    destruct (has_property_is_object _ _ _ Hid) as [props ->]. msimpl.
    rewrite Hid, Hamount. unfold Bearer.validateTransactionId.
    destruct (100 <? length (c :: s))%nat eqn:E; [apply Nat.ltb_lt in E; lia|].
    cbn [length Nat.ltb Nat.leb orb]. msimpl.
    unfold Bearer.validateAmount. rewrite (positive_not_leb q Hpos).
    assert (Hmax : num_gtb (Fin q) (num_of_Z 1000000) = false).
    { apply not_true_iff_false. intros H. apply num_gtb_Fin in H.
      unfold Qlt in *. simpl in *. lia. }
    rewrite Hmax. msimpl. rewrite Hround.
    unfold Bearer.captureTransaction. rewrite Hkey.
    replace (negb (truthy (JStr (Bearer.string_of (Bearer.sanitizeInput (JStr (c :: s))))))
             || negb (num_truthy (num_of_Z 0)) || num_leb (num_of_Z 0) (num_of_Z 0))
      with true by (rewrite orb_true_r; reflexivity).
    msimpl. eexists; reflexivity.
Qed.

Lemma tiny_amount_is_a_server_error_witness :
  exists text,
    Loose.handler (tiny_world friendly_gateway) tiny_request empty_heap
    = (after_auth (tiny_world friendly_gateway) empty_heap,
       inr (mkResponse 500 false (Some text) None)).
Proof.
  apply (tiny_amount_is_a_server_error (tiny_world friendly_gateway) tiny_request empty_heap
           tiny_value 84%N (js "XN12345") milli); try reflexivity.
  exists 4611686018427388, (-62). repeat split; reflexivity || discriminate.
Defined.

(** C10 fails as stated: by the time the capture of a thousandth of a pound
    is refused, the handlers of the token revisions have put the token
    exchange on the wire. *)
Lemma token_exchange_precedes_rejection :
  Loose.handler (tiny_world friendly_gateway) tiny_request empty_heap
  = (mkHeap ∅ [AuthTokens (js "sk_live_2f81")],
     inr (mkResponse 500 false (Some (js "Paymob capture API call failed.")) None))
  /\ Token.handler (tiny_world friendly_gateway) tiny_request empty_heap
     = (mkHeap ∅ [AuthTokens (js "sk_live_2f81")],
        inr (mkResponse 500 false
               (Some (js "Invalid input for capture: Missing transactionId or invalid amount."))
               None)).
Proof. split; vm_compute; reflexivity. Qed.

(** ** The rounded product against the Standard Library's binary64

    [times100] rounds the exact product by [round_binary64].  On the amounts
    of the statement above it gives what the multiplication of the Standard
    Library's IEEE 754 model gives: the double nearest to 0.001 and the
    largest double below 0.005 give a product that [Math.round] sends to 0;
    the double nearest to 0.005, which lies above 0.005, gives 1. *)

Lemma binary64_tiny_products :
  value_of (binary64 4611686018427388 (-62)) = Fin milli
  /\ Math_round (value_of (times100_binary64 (binary64 4611686018427388 (-62))))
     = num_of_Z 0
  /\ Math_round (times100 (Fin milli)) = num_of_Z 0
  /\ Math_round (value_of (times100_binary64 (binary64 5764607523034234 (-60))))
     = num_of_Z 0
  /\ Math_round (times100 (value_of (binary64 5764607523034234 (-60)))) = num_of_Z 0
  /\ Math_round (value_of (times100_binary64 (binary64 5764607523034235 (-60))))
     = num_of_Z 1
  /\ Math_round (times100 (value_of (binary64 5764607523034235 (-60)))) = num_of_Z 1.
Proof. repeat split; vm_compute; reflexivity. Qed.

(** The two products agree on further doubles, among them those where the
    rounding shows: 1.115, whose product rounds up to 111.5 and so to 112
    piasters; 0.015, whose product rounds to 1.5 and so to 2; 0.045 and
    0.145; 25.5; the largest double below a ten-thousandth of [2^1024] and
    its successors, where the product overflows; [2^1023]; subnormal and
    negative numbers. *)
Lemma times100_matches_binary64 :
  forallb (fun x => same_number (times100 (value_of x)) (value_of (times100_binary64 x)))
    [ binary64 5021513584518103 (-52); binary64 8646911284551352 (-59);
      binary64 6485183463413514 (-57); binary64 5224175567749775 (-55);
      binary64 7177611906121728 (-48);
      binary64 4611686018427388 (-62); binary64 5764607523034234 (-60);
      binary64 5764607523034235 (-60);
      binary64 5764607523034234 964; binary64 5764607523034235 964;
      binary64 5764607523034236 964;
      binary64 4503599627370496 971; binary64 9007199254740991 971;
      binary64 1 (-1074); binary64 3 (-1074); binary64 12345 (-1074);
      binary64 4503599627370495 (-1074); binary64 4503599627370496 (-1074);
      S754_finite true 5021513584518103 (-52); S754_finite true 3 (-1074);
      S754_finite true 4503599627370496 971; S754_zero false ] = true
  /\ Math_round (times100 (value_of (binary64 5021513584518103 (-52)))) = num_of_Z 112
  /\ Math_round (times100 (value_of (binary64 8646911284551352 (-59)))) = num_of_Z 2
  /\ Math_round (times100 (value_of (binary64 7177611906121728 (-48)))) = num_of_Z 2550
  /\ times100 (value_of (binary64 4503599627370496 971)) = Inf false.
Proof.
  split; [vm_compute; reflexivity|].
  split; [vm_compute; reflexivity|].
  split; [vm_compute; reflexivity|].
  split; vm_compute; reflexivity.
Qed.

(** * Further properties *)

(** ** The rate limiter over many calls *)

Lemma calls_cons c t rest store :
  Strict.calls c (t :: rest) store
  = (fst (Strict.checkRateLimit t c store)
       :: fst (Strict.calls c rest (snd (Strict.checkRateLimit t c store))),
     snd (Strict.calls c rest (snd (Strict.checkRateLimit t c store)))).
Proof.
  cbn [Strict.calls]. destruct (Strict.checkRateLimit t c store) as [ok store'].
  cbn [fst snd]. destruct (Strict.calls c rest store') as [oks store'']. reflexivity.
Qed.

Lemma live_app now l1 l2 : live now (l1 ++ l2) = live now l1 ++ live now l2.
Proof. unfold live. apply List.filter_app. Qed.

Lemma live_live t now l : now <= t -> live t (live now l) = live t l.
Proof.
  intros Hle. induction l as [|a l IH]; [reflexivity|].
  unfold live in *. cbn [List.filter].
  destruct (now - 60000 <? a) eqn:E1; destruct (t - 60000 <? a) eqn:E2; cbn [List.filter];
    rewrite ?E2, ?IH; try reflexivity.
  apply Z.ltb_lt in E2. apply Z.ltb_ge in E1. lia.
Qed.

Lemma live_shrinks t now l : now <= t -> (length (live t l) <= length (live now l))%nat.
Proof.
  intros Hle. induction l as [|a l IH]; [reflexivity|].
  unfold live in *. cbn [List.filter].
  destruct (now - 60000 <? a) eqn:E1; destruct (t - 60000 <? a) eqn:E2; cbn [length]; lia.
Qed.

Lemma window_of_past t l :
  Forall (fun a => a <= t) l -> List.filter (in_window t) l = live t l.
Proof.
  induction 1 as [|a l Ha _ IH]; [reflexivity|].
  unfold live, in_window in *. cbn [List.filter]. rewrite IH.
  rewrite (proj2 (Z.leb_le a t) Ha), andb_true_r. reflexivity.
Qed.

Lemma window_invariant c : forall times lo store hist,
  nondecreasing lo times ->
  Forall (fun a => a <= lo) hist ->
  (forall t, lo <= t -> live t (default [] (store !! c)) = live t hist) ->
  (forall t, (length (List.filter (in_window t) hist) <= 5)%nat) ->
  forall t,
    (length (List.filter (in_window t)
               (hist ++ allowed_times times (fst (Strict.calls c times store)))) <= 5)%nat.
Proof.
  induction times as [|t0 rest IH]; intros lo store hist Hclock Hpast Hrec Hcap t.
  - cbn. rewrite app_nil_r. apply Hcap.
  - destruct Hclock as [Hlo Hclock]. rewrite calls_cons. cbn [fst allowed_times].
    assert (Hpast0 : Forall (fun a => a <= t0) hist).
    { eapply List.Forall_impl; [|exact Hpast]. cbn. intros a Ha. lia. }
    destruct (Nat.le_gt_cases 5 (length (live t0 (default [] (store !! c))))) as [Hfull|Hroom].
    + rewrite (checkRateLimit_deny t0 c store Hfull). cbn [fst snd].
      apply (IH t0 store hist); auto.
      intros t' Ht'. apply Hrec. lia.
    + rewrite (checkRateLimit_allow t0 c store Hroom). cbn [fst snd].
      change (hist ++ t0 :: ?l) with (hist ++ [t0] ++ l). rewrite app_assoc.
      apply (IH t0 _ (hist ++ [t0])); auto.
      * apply List.Forall_app. split; [exact Hpast0|]. constructor; [lia|constructor].
      * intros t' Ht'. rewrite lookup_insert_eq.
        change (default [] (Some ?l)) with l.
        rewrite !live_app, (live_live t' t0 _ Ht'), (Hrec t') by lia. reflexivity.
      * intros t'. rewrite List.filter_app, length_app. cbn [List.filter].
        destruct (in_window t' t0) eqn:Ein; cbn [length].
        2:{ specialize (Hcap t'). lia. }
        unfold in_window in Ein. apply andb_true_iff in Ein as [_ Ele].
        apply Z.leb_le in Ele.
        rewrite window_of_past by (eapply List.Forall_impl; [|exact Hpast0]; cbn; intros; lia).
        pose proof (live_shrinks t' t0 hist Ele) as Hs.
        rewrite <- (Hrec t0 Hlo) in Hs. lia.
Qed.

(** X1: for a client without a record, and a clock that does not run backwards,
    the limiter allows at most five calls in any minute: whatever the times
    of the calls and whatever the instant [t], at most five of the allowed
    calls fall in the window that ends at [t]. *)
Theorem at_most_five_per_window (clientId : jsstring) (store : gmap jsstring (list Z))
    (lo : Z) (times : list Z)
    (Hfresh : default [] (store !! clientId) = [])
    (Hclock : nondecreasing lo times) :
  forall t,
    (length (List.filter (in_window t)
               (allowed_times times (fst (Strict.calls clientId times store)))) <= 5)%nat.
Proof.
  intros t.
  apply (window_invariant clientId times lo store [] Hclock).
  - constructor.
  - intros t' _. rewrite Hfresh. reflexivity.
  - intros t'. cbn. lia.
Qed.

Lemma at_most_five_per_window_witness :
  (length (List.filter (in_window 9000%Z)
             (allowed_times [1000; 2000; 3000; 4000; 5000; 6000; 7000; 8000]%Z
                (fst (Strict.calls (js "203.0.113.7")
                        [1000; 2000; 3000; 4000; 5000; 6000; 7000; 8000]%Z ∅)))) <= 5)%nat.
Proof.
  apply (at_most_five_per_window (js "203.0.113.7") ∅ 0).
  - rewrite lookup_empty. reflexivity.
  - cbn. lia.
Defined.

Lemma checkRateLimit_other now c c' store :
  c <> c' -> snd (Strict.checkRateLimit now c store) !! c' = store !! c'.
Proof.
  intros Hne. unfold Strict.checkRateLimit.
  destruct (store !! c) as [l|] eqn:E; cbn zeta;
    destruct (_ <=? _)%nat; cbn [snd]; rewrite ?lookup_insert_ne by exact Hne; reflexivity.
Qed.

Lemma checkRateLimit_answer now c store :
  fst (Strict.checkRateLimit now c store)
  = negb (5 <=? length (live now (default [] (store !! c))))%nat.
Proof.
  destruct (Nat.le_gt_cases 5 (length (live now (default [] (store !! c))))) as [H|H].
  - rewrite (checkRateLimit_deny _ _ _ H). symmetry. apply negb_false_iff, Nat.leb_le, H.
  - rewrite (checkRateLimit_allow _ _ _ H). symmetry. apply negb_true_iff, Nat.leb_gt, H.
Qed.

Lemma checkRateLimit_store now c store :
  snd (Strict.checkRateLimit now c store)
  = if (5 <=? length (live now (default [] (store !! c))))%nat
    then store
    else <[c := live now (default [] (store !! c)) ++ [now]]> store.
Proof.
  destruct (Nat.le_gt_cases 5 (length (live now (default [] (store !! c))))) as [H|H].
  - rewrite (checkRateLimit_deny _ _ _ H), (proj2 (Nat.leb_le _ _) H). reflexivity.
  - rewrite (checkRateLimit_allow _ _ _ H), (proj2 (Nat.leb_gt _ _) H). reflexivity.
Qed.

(** X2: the limiter keeps clients apart.  For two different client identifiers
    the calls commute: each client gets the same answer whichever call comes
    first, the store is the same in the end, and a call leaves the record of
    every other client as it was. *)
Theorem clients_do_not_interfere (c1 c2 : jsstring) (t1 t2 : Z)
    (store : gmap jsstring (list Z)) (Hne : c1 <> c2) :
  let first := Strict.checkRateLimit t1 c1 store in
  let second := Strict.checkRateLimit t2 c2 (snd first) in
  let first' := Strict.checkRateLimit t2 c2 store in
  let second' := Strict.checkRateLimit t1 c1 (snd first') in
  fst first = fst second' /\ fst second = fst first' /\ snd second = snd second'
  /\ (forall c, c <> c1 -> snd first !! c = store !! c).
Proof.
  cbv zeta.
  assert (H21 : c2 <> c1) by congruence.
  split; [|split; [|split]].
  - rewrite !checkRateLimit_answer, (checkRateLimit_other t2 c2 c1 store H21). reflexivity.
  - rewrite !checkRateLimit_answer, (checkRateLimit_other t1 c1 c2 store Hne). reflexivity.
  - rewrite (checkRateLimit_store t2 c2 (snd _)), (checkRateLimit_store t1 c1 (snd _)).
    rewrite (checkRateLimit_other t1 c1 c2 store Hne), (checkRateLimit_other t2 c2 c1 store H21).
    rewrite (checkRateLimit_store t1 c1 store), (checkRateLimit_store t2 c2 store).
    destruct (5 <=? _)%nat; destruct (5 <=? _)%nat; try reflexivity.
    apply insert_insert_ne. exact H21.
  - intros c Hc. apply checkRateLimit_other. congruence.
Qed.

Lemma clients_do_not_interfere_witness :
  snd (Strict.checkRateLimit 2000 (js "198.51.100.2")
         (snd (Strict.checkRateLimit 1000 (js "203.0.113.7") ∅)))
  = snd (Strict.checkRateLimit 1000 (js "203.0.113.7")
           (snd (Strict.checkRateLimit 2000 (js "198.51.100.2") ∅))).
Proof.
  apply (clients_do_not_interfere (js "203.0.113.7") (js "198.51.100.2") 1000 2000 ∅).
  discriminate.
Defined.

Lemma checkRateLimit_bounded now c store :
  bounded_store store -> bounded_store (snd (Strict.checkRateLimit now c store)).
Proof.
  intros Hb c' l. rewrite checkRateLimit_store.
  destruct (5 <=? _)%nat eqn:E; [apply Hb|].
  apply Nat.leb_gt in E.
  destruct (decide (c = c')) as [<-|Hne].
  - rewrite lookup_insert_eq. intros [= <-]. rewrite length_app. cbn. lia.
  - rewrite lookup_insert_ne by exact Hne. apply Hb.
Qed.

Lemma checkRateLimit_keeps_clients now c c' store :
  is_Some (store !! c') -> is_Some (snd (Strict.checkRateLimit now c store) !! c').
Proof.
  intros Hin. rewrite checkRateLimit_store.
  destruct (5 <=? _)%nat; [exact Hin|].
  destruct (decide (c = c')) as [<-|Hne].
  - rewrite lookup_insert_eq. eauto.
  - rewrite lookup_insert_ne by exact Hne. exact Hin.
Qed.

(** X3: the store of the limiter.  If no record holds more than five timestamps,
    none does after any number of calls; and a client that has a record
    keeps one: no call removes an entry of the map. *)
Theorem records_stay_bounded (clientId : jsstring) (times : list Z)
    (store : gmap jsstring (list Z)) (Hb : bounded_store store) :
  bounded_store (snd (Strict.calls clientId times store))
  /\ (forall c, is_Some (store !! c) -> is_Some (snd (Strict.calls clientId times store) !! c)).
Proof.
  revert store Hb. induction times as [|t rest IH]; intros store Hb.
  - split; [exact Hb|auto].
  - rewrite calls_cons. cbn [snd].
    destruct (IH _ (checkRateLimit_bounded t clientId store Hb)) as [IH1 IH2].
    split; [exact IH1|].
    intros c Hc. apply IH2, checkRateLimit_keeps_clients, Hc.
Qed.

Lemma records_stay_bounded_witness :
  bounded_store (snd (Strict.calls (js "203.0.113.7") [1000; 1001; 1002; 1003; 1004; 1005; 1006] ∅)).
Proof.
  apply (records_stay_bounded (js "203.0.113.7") [1000; 1001; 1002; 1003; 1004; 1005; 1006] ∅).
  intros c l H. rewrite lookup_empty in H. discriminate.
Defined.

(** ** The sanitizer of the strict revision *)

Lemma trimStart_suffix s : exists p, s = p ++ trimStart s.
Proof.
  induction s as [|c s [p IH]]; [exists []; reflexivity|].
  cbn [trimStart]. destruct (isWhiteSpace c).
  - exists (c :: p). cbn. f_equal. exact IH.
  - exists []. reflexivity.
Qed.

Lemma trimStart_sublist s : trimStart s `sublist_of` s.
Proof.
  destruct (trimStart_suffix s) as [p Hp]. rewrite Hp at 2.
  apply sublist_inserts_l. reflexivity.
Qed.

Lemma trimEnd_sublist s : trimEnd s `sublist_of` s.
Proof.
  unfold trimEnd. destruct (trimStart_suffix (rev s)) as [p Hp].
  assert (Hs : s = rev (trimStart (rev s)) ++ rev p).
  { rewrite <- rev_app_distr, <- Hp, rev_involutive. reflexivity. }
  rewrite Hs at 2. apply sublist_inserts_r. reflexivity.
Qed.

Lemma trim_sublist s : trim s `sublist_of` s.
Proof.
  unfold trim. etransitivity; [apply trimEnd_sublist|apply trimStart_sublist].
Qed.

Lemma filter_sublist (f : N -> bool) s : List.filter f s `sublist_of` s.
Proof.
  induction s as [|c s IH]; [constructor|].
  cbn [List.filter]. destruct (f c); constructor; exact IH.
Qed.

Lemma remove_ci_sublist pat : forall s skip, Strict.remove_ci pat skip s `sublist_of` s.
Proof.
  induction s as [|c s IH]; intros skip; [constructor|].
  cbn [Strict.remove_ci]. destruct skip as [|k].
  - destruct (Strict.starts_with_ci pat (c :: s)); constructor; apply IH.
  - constructor. apply IH.
Qed.

Lemma remove_on_handlers_sublist : forall s skip,
  Strict.remove_on_handlers skip s `sublist_of` s.
Proof.
  induction s as [|c s IH]; intros skip; [constructor|].
  cbn [Strict.remove_on_handlers]. destruct skip as [|k].
  - destruct (Strict.match_on_handler (c :: s)); constructor; apply IH.
  - constructor. apply IH.
Qed.

Lemma sublist_keeps_Forall (P : N -> Prop) (l1 l2 : list N) :
  l1 `sublist_of` l2 -> Forall P l2 -> Forall P l1.
Proof.
  induction 1 as [|x l1 l2 _ IH|x l1 l2 _ IH]; intros H.
  - constructor.
  - inversion H; subst. constructor; auto.
  - inversion H; subst. auto.
Qed.

Lemma filter_not_dangerous s :
  Forall (fun c => Strict.isDangerous c = false)
         (List.filter (fun c => negb (Strict.isDangerous c)) s).
Proof.
  apply List.Forall_forall. intros c Hc. apply filter_In in Hc as [_ Hc].
  apply negb_true_iff, Hc.
Qed.

(** X4: what [sanitizeInput] returns.  A returned string is not empty, is at most
    [maxLength] code units long, is made of code units of the input in their
    order (nothing is added or replaced), and holds none of the characters
    that the first replacement removes. *)
Theorem sanitizeInput_output (s : jsstring) (maxLength : nat) (r : jsstring)
    (Hok : Strict.sanitizeInput (JStr s) maxLength = inr r) :
  r <> []
  /\ (length r <= maxLength)%nat
  /\ r `sublist_of` s
  /\ Forall (fun c => Strict.isDangerous c = false) r.
Proof.
  unfold Strict.sanitizeInput in Hok.
  set (cleaned := Strict.remove_on_handlers 0
                    (Strict.remove_ci (js "javascript:") 0
                       (List.filter (fun c => negb (Strict.isDangerous c)) (trim s)))) in *.
  assert (Hsub : cleaned `sublist_of` List.filter (fun c => negb (Strict.isDangerous c)) (trim s)).
  { unfold cleaned. etransitivity; [apply remove_on_handlers_sublist|apply remove_ci_sublist]. }
  destruct (firstn maxLength cleaned) as [|c r'] eqn:E; [discriminate|].
  injection Hok as <-. rewrite <- E.
  split; [rewrite E; discriminate|].
  split; [rewrite length_firstn; lia|].
  assert (Hcut : firstn maxLength cleaned `sublist_of` cleaned) by apply sublist_take.
  split.
  - etransitivity; [exact Hcut|]. etransitivity; [exact Hsub|].
    etransitivity; [apply filter_sublist|apply trim_sublist].
  - eapply sublist_keeps_Forall; [etransitivity; [exact Hcut|exact Hsub]|].
    apply filter_not_dangerous.
Qed.

Lemma sanitizeInput_output_witness :
  js "scriptalert(1)/script"
  `sublist_of` js "  <script>alert(1)</script> ".
Proof.
  apply (sanitizeInput_output (js "  <script>alert(1)</script> ") 100
           (js "scriptalert(1)/script")).
  vm_compute. reflexivity.
Defined.

Lemma trimStart_blank s : Forall (fun c => isWhiteSpace c = true) s -> trimStart s = [].
Proof.
  induction 1 as [|c s Hc _ IH]; [reflexivity|]. cbn [trimStart]. rewrite Hc. exact IH.
Qed.

Lemma filter_all_dangerous s :
  Forall (fun c => Strict.isDangerous c = true) s ->
  List.filter (fun c => negb (Strict.isDangerous c)) s = [].
Proof.
  induction 1 as [|c s Hc _ IH]; [reflexivity|]. cbn [List.filter]. rewrite Hc. exact IH.
Qed.

(** X5: what [sanitizeInput] refuses.  A value that is not a string is refused
    with [Input must be a string]; a string is refused with [Input cannot be
    empty after sanitization] when [maxLength] is 0, when it is made of white
    space only, or when it is made of removed characters only (the empty
    string is all three). *)
Theorem sanitizeInput_rejects (input : JsValue) (maxLength : nat) :
  (is_string input = false ->
   Strict.sanitizeInput input maxLength = inl (new_Error (js "Input must be a string")))
  /\ (forall s, input = JStr s ->
      maxLength = 0%nat
      \/ Forall (fun c => isWhiteSpace c = true) s
      \/ Forall (fun c => Strict.isDangerous c = true) s ->
      Strict.sanitizeInput input maxLength
      = inl (new_Error (js "Input cannot be empty after sanitization"))).
Proof.
  split.
  - destruct input; try discriminate; reflexivity.
  - intros s -> H. unfold Strict.sanitizeInput.
    destruct H as [-> | [Hblank | Hbad]].
    + reflexivity.
    + unfold trim. rewrite (trimStart_blank s Hblank). cbn. destruct maxLength; reflexivity.
    + assert (Hsub : trim s `sublist_of` s) by apply trim_sublist.
      rewrite (filter_all_dangerous (trim s)) by (eapply sublist_keeps_Forall; eassumption).
      cbn. destruct maxLength; reflexivity.
Qed.

Lemma sanitizeInput_rejects_witness :
  Strict.sanitizeInput (JStr (js "<>&")) 50
  = inl (new_Error (js "Input cannot be empty after sanitization")).
Proof.
  apply (proj2 (sanitizeInput_rejects (JStr (js "<>&")) 50) (js "<>&") eq_refl).
  right. right. repeat constructor.
Defined.

(** ** The strict handler on whole requests *)

Lemma validateAmount_inv v x :
  Strict.validateAmount v = inr x ->
  exists q, v = JNum (Fin q) /\ x = Fin q
            /\ (0 < q)%Q /\ (q <= 99999999)%Q /\ exists z : Z, (q == inject_Z z)%Q.
Proof.
  unfold Strict.validateAmount, num_of_Z. intros H.
  destruct v as [| | |[| |q]| | |]; try discriminate.
  cbn [isFinite negb] in H.
  destruct (num_leb (Fin q) (Fin (inject_Z 0))) eqn:E0; [discriminate|].
  destruct (num_gtb (Fin q) (Fin (inject_Z 99999999))) eqn:E1; [discriminate|].
  destruct (isInteger (Fin q)) eqn:E2; [|discriminate].
  cbn [negb] in H. injection H as <-.
  exists q. repeat split.
  - apply Qnot_le_lt. intros Hle.
    apply (proj2 (num_leb_Fin q (inject_Z 0))) in Hle. rewrite Hle in E0. discriminate.
  - apply Qnot_lt_le. intros Hlt.
    apply (proj2 (num_gtb_Fin q (inject_Z 99999999))) in Hlt. rewrite Hlt in E1. discriminate.
  - apply isInteger_spec, E2.
Qed.

Lemma validateAmount_accepts q :
  (0 < q)%Q -> (q <= 99999999)%Q -> (exists z : Z, (q == inject_Z z)%Q) ->
  Strict.validateAmount (JNum (Fin q)) = inr (Fin q).
Proof.
  intros Hpos Hmax Hint. unfold Strict.validateAmount, num_of_Z. cbn [isFinite negb].
  destruct (num_leb (Fin q) (Fin (inject_Z 0))) eqn:E0.
  { apply num_leb_Fin in E0. exfalso. apply (Qlt_not_le _ _ Hpos E0). }
  destruct (num_gtb (Fin q) (Fin (inject_Z 99999999))) eqn:E1.
  { apply num_gtb_Fin in E1. exfalso. apply (Qlt_not_le _ _ E1 Hmax). }
  rewrite (proj2 (isInteger_spec q) Hint). reflexivity.
Qed.

Lemma positive_truthy q : (0 < q)%Q -> num_truthy (Fin q) = true.
Proof.
  intros Hpos. cbn. apply negb_true_iff, not_true_iff_false. intros H.
  apply Qeq_bool_iff in H. rewrite H in Hpos. apply (Qlt_irrefl _ Hpos).
Qed.

Lemma strict_parse_inv w req h tid x :
  snd (Strict.parse_and_validate w req h) = inr (tid, x) ->
  exists bodyData,
    truthy (body req) = true
    /\ JSON_parse (rt w) (body req) = inr bodyData
    /\ Strict.validateTransactionId (get bodyData (js "transactionId")) = inr tid
    /\ Strict.validateAmount (get bodyData (js "amountCents")) = inr x.
Proof.
  unfold Strict.parse_and_validate, prop.
  destruct (truthy (body req)); msimpl; [|discriminate].
  destruct (JSON_parse (rt w) (body req)) as [e|bd]; msimpl; [discriminate|].
  intros H. exists bd. split; [reflexivity|]. split; [reflexivity|].
  destruct bd; msimpl; try discriminate; revert H; msimpl;
    (destruct (Strict.validateTransactionId _) as [e|t]; msimpl; [discriminate|]);
    (destruct (Strict.validateAmount _) as [e|a]; msimpl; [discriminate|]);
    intros [= <- <-]; auto.
Qed.

Lemma strict_parse_accepts w req h bodyData tid q :
  truthy (body req) = true ->
  JSON_parse (rt w) (body req) = inr bodyData ->
  get bodyData (js "transactionId") = JStr tid -> id_policy tid ->
  get bodyData (js "amountCents") = JNum (Fin q) ->
  (0 < q)%Q -> (q <= 99999999)%Q -> (exists z : Z, (q == inject_Z z)%Q) ->
  Strict.parse_and_validate w req h = (h, inr (tid, Fin q)).
Proof.
  intros Hbody Hparse Hid Hpol Hamt Hpos Hmax Hint.
  unfold Strict.parse_and_validate, prop. rewrite Hbody, Hparse. msimpl.
  destruct (has_property_is_object _ _ _ Hid) as [props ->]. msimpl.
  rewrite Hid, (validateTransactionId_accepts tid Hpol). msimpl.
  rewrite Hamt, (validateAmount_accepts q Hpos Hmax Hint). reflexivity.
Qed.

(** X6: a request that passes every gate of the strict handler.  For a POST with
    headers, allowed by the limiter, with a body within the size limit that
    parses to an identifier within the policy and a positive integer amount
    of at most 99999999, and with the credential present, the handler sends
    exactly one capture request (the identifier and the amount as given, the
    credential after [Token ]), records the call of the client, and answers
    200 with the request identifier if the gateway answers 200 or 201 with a
    body that is an object or falsy, and 500 [Capture process failed]
    otherwise. *)
Theorem strict_valid_request_outcome (w : World) (req : Request) (h : Heap)
    (hs : Headers) (bodySize : Z) (key : jsstring) (bodyData : JsValue)
    (tid : jsstring) (q : Q)
    (Hmethod : method req = js "POST")
    (Hheaders : headers req = Some hs)
    (Hallowed : fst (Strict.checkRateLimit (now w) (Strict.clientId_of hs) (rateLimitStore h)) = true)
    (Hsize : stringify_byteLength (rt w) (body req) = inr bodySize)
    (Hfits : bodySize <= 512000)
    (Hkey : env_key w = Some key) (Hkey' : key <> [])
    (Hbody : truthy (body req) = true)
    (Hparse : JSON_parse (rt w) (body req) = inr bodyData)
    (Hid : get bodyData (js "transactionId") = JStr tid) (Hpol : id_policy tid)
    (Hamt : get bodyData (js "amountCents") = JNum (Fin q))
    (Hpos : (0 < q)%Q) (Hmax : (q <= 99999999)%Q)
    (Hint : exists z : Z, (q == inject_Z z)%Q) :
  let wire := Capture (Some (js "Token " ++ key)) None tid (Fin q) in
  let h' := mkHeap (snd (Strict.checkRateLimit (now w) (Strict.clientId_of hs) (rateLimitStore h)))
                   (outbox h ++ [wire]) in
  Strict.handler w req h
  = (h', inr (if capture_ok (gateway w wire)
              then mkResponse 200 true None (Some (uuid w))
              else mkResponse 500 false (Some (js "Capture process failed")) (Some (uuid w)))).
Proof.
  intros wire h'. rewrite handler_unfold. unfold jsstring_eqb.
  rewrite (bool_decide_eq_true_2 _ Hmethod), Hheaders. cbn [negb]. cbv zeta.
  rewrite Hallowed, Hsize. cbn [negb].
  rewrite (proj2 (Z.ltb_ge _ _) Hfits), Hkey.
  destruct key as [|k0 key]; [congruence|]. cbn [missing].
  rewrite (strict_parse_accepts w req _ bodyData tid q Hbody Hparse Hid Hpol Hamt Hpos Hmax Hint).
  cbn [snd]. rewrite captureTransaction_run. cbn [missing].
  destruct Hpol as [Hlen _]. destruct tid as [|c tid]; [cbn in Hlen; lia|].
  rewrite (positive_truthy q Hpos), (positive_not_leb q Hpos). cbn [truthy negb orb]. cbv zeta.
  unfold strict_wire. cbn [default from_option id]. fold wire. fold h'.
  unfold capture_ok, Strict.validateStatus.
  destruct (gateway w wire) as [st d|reason]; [|reflexivity].
  destruct (st =? 200) eqn:E200; destruct (st =? 201) eqn:E201;
  destruct (200 <=? st) eqn:Elo; destruct (st <? 300) eqn:Ehi;
  destruct (truthy d); destruct (is_object d); cbn [negb orb andb]; try reflexivity; lia.
Qed.

Lemma strict_valid_request_outcome_witness :
  Strict.handler (strict_world friendly_gateway) strict_request empty_heap
  = (mkHeap (snd (Strict.checkRateLimit 1700000000000 (js "203.0.113.7") ∅))
            [Capture (Some (js "Token sk_live_2f81")) None (js "TXN12345") (Fin (inject_Z 10000))],
     inr (mkResponse 200 true None (Some (js "0b9f6a52-7c1e-4f0a-9d3b-5e2a8c417d66")))).
Proof.
  apply (strict_valid_request_outcome (strict_world friendly_gateway) strict_request empty_heap
           example_headers 56 (js "sk_live_2f81") strict_value (js "TXN12345") (inject_Z 10000));
    try reflexivity; try discriminate.
  - split; [vm_compute; lia|]. apply forallb_isIdChar. reflexivity.
  - exists 10000. reflexivity.
Defined.

(** X7: the responses of the strict handler.  The handler never throws, whatever
    the request, the state and the gateway, and its response is one of eight:
    the success, or one of seven fixed failures.  No text of the gateway, of
    the parser or of a validator reaches the caller, and [success] is [true]
    exactly with status 200. *)
Theorem strict_response_surface (w : World) (req : Request) (h : Heap) :
  exists h' r,
    Strict.handler w req h = (h', inr r)
    /\ In r (strict_responses (uuid w))
    /\ (success r = true <-> status r = 200).
Proof.
  rewrite handler_unfold. unfold strict_responses, res_json.
  repeat case_match; eexists _, _; (split; [reflexivity|]);
    (split; [cbn [In]; tauto | cbn [success status]; split; intros; (discriminate || reflexivity)]).
Qed.

Lemma strict_capture_store w key tid amt h :
  rateLimitStore (fst (Strict.captureTransaction w key tid amt h)) = rateLimitStore h.
Proof.
  rewrite captureTransaction_run. repeat case_match; reflexivity.
Qed.

(** X8: what a request costs in the limiter.  A request with another method, or
    without headers, leaves the store as it was.  Every other request leaves
    exactly the store of one call of [checkRateLimit] for its client,
    whatever happens afterwards: a request refused for its size, its body or
    a failure of the gateway counts against the quota like a successful one,
    and the records of other clients are untouched. *)
Theorem strict_quota_accounting (w : World) (req : Request) (h : Heap) :
  let store' := rateLimitStore (fst (Strict.handler w req h)) in
  (method req <> js "POST" -> store' = rateLimitStore h)
  /\ (headers req = None -> store' = rateLimitStore h)
  /\ (forall hs, method req = js "POST" -> headers req = Some hs ->
      store' = snd (Strict.checkRateLimit (now w) (Strict.clientId_of hs) (rateLimitStore h))
      /\ forall c, c <> Strict.clientId_of hs -> store' !! c = rateLimitStore h !! c).
Proof.
  cbv zeta.
  assert (Hmain : forall hs, method req = js "POST" -> headers req = Some hs ->
    rateLimitStore (fst (Strict.handler w req h))
    = snd (Strict.checkRateLimit (now w) (Strict.clientId_of hs) (rateLimitStore h))).
  { intros hs Hm Hh. rewrite handler_unfold. unfold jsstring_eqb.
    rewrite (bool_decide_eq_true_2 _ Hm), Hh. cbn [negb]. cbv zeta.
    destruct (negb _); [reflexivity|].
    destruct (stringify_byteLength _ _); [reflexivity|].
    destruct (_ <? _); [reflexivity|].
    destruct (missing _); [reflexivity|].
    destruct (snd (Strict.parse_and_validate _ _ _)) as [e|[tid amt]]; [reflexivity|].
    pose proof (strict_capture_store w (env_key w) tid amt
                  (mkHeap (snd (Strict.checkRateLimit (now w) (Strict.clientId_of hs)
                                  (rateLimitStore h))) (outbox h))) as Hs.
    destruct (Strict.captureTransaction _ _ _ _ _) as [h2 [e|b]]; exact Hs. }
  split; [|split].
  - intros Hm. rewrite handler_unfold. unfold jsstring_eqb.
    rewrite (bool_decide_eq_false_2 _ Hm). reflexivity.
  - intros Hh. rewrite handler_unfold, Hh. destruct (negb _); reflexivity.
  - intros hs Hm Hh. rewrite (Hmain hs Hm Hh).
    split; [reflexivity|]. intros c Hc. apply checkRateLimit_other. congruence.
Qed.

Lemma strict_quota_accounting_witness :
  rateLimitStore (fst (Strict.handler (strict_world friendly_gateway)
                         (mkRequest (js "POST") (Some example_headers) (JStr (js "amount=100")))
                         empty_heap))
  = snd (Strict.checkRateLimit 1700000000000 (js "203.0.113.7") ∅).
Proof.
  apply (proj2 (proj2 (strict_quota_accounting (strict_world friendly_gateway)
                         (mkRequest (js "POST") (Some example_headers) (JStr (js "amount=100")))
                         empty_heap)) example_headers); reflexivity.
Defined.

Lemma strict_capture_sends w key tid amt h :
  missing key = false -> capturable tid amt ->
  exists res,
    Strict.captureTransaction w key tid amt h
    = (mkHeap (rateLimitStore h) (outbox h ++ [strict_wire key tid amt]), res)
    /\ (res = inr true \/ exists e, res = inl e).
Proof.
  intros Hkey Hcap. rewrite (strict_capture_run w key tid amt h Hkey Hcap). cbv zeta.
  repeat case_match; eexists; (split; [reflexivity|]); eauto.
Qed.

Ltac quiet_case :=
  cbn [fst snd]; split; [left; reflexivity|];
  split; [intros; reflexivity | intros r [= <-]; discriminate].

(** X9: what the strict handler sends.  One invocation sends nothing, or exactly
    one capture request; a request is only sent for a POST, with the
    credential after [Token ], an identifier of 5 to 50 characters of the
    class [A-Za-z0-9_-] and an integer amount above 0 and at most 99999999.
    A response other than 200 and 500 means that nothing was sent, and a 200
    that something was. *)
Theorem strict_wire_discipline (w : World) (req : Request) (h : Heap) :
  let out := Strict.handler w req h in
  (outbox (fst out) = outbox h
   \/ exists key tid q,
        outbox (fst out)
        = outbox h ++ [Capture (Some (js "Token " ++ key)) None tid (Fin q)]
        /\ env_key w = Some key /\ key <> []
        /\ method req = js "POST"
        /\ id_policy tid
        /\ (0 < q)%Q /\ (q <= 99999999)%Q /\ (exists z : Z, (q == inject_Z z)%Q))
  /\ (forall r, snd out = inr r -> status r <> 200 -> status r <> 500 ->
      outbox (fst out) = outbox h)
  /\ (forall r, snd out = inr r -> status r = 200 -> outbox (fst out) <> outbox h).
Proof.
  cbv zeta. rewrite handler_unfold. unfold jsstring_eqb, res_json.
  destruct (bool_decide (method req = js "POST")) eqn:Hm; cbn [negb];
    [apply bool_decide_eq_true in Hm|].
  2:{ quiet_case. }
  destruct (headers req) as [hs|].
  2:{ quiet_case. }
  cbv zeta. destruct (negb _).
  { quiet_case. }
  destruct (stringify_byteLength _ _) as [e|n].
  { quiet_case. }
  destruct (_ <? _).
  { quiet_case. }
  destruct (missing (env_key w)) eqn:Hk.
  { quiet_case. }
  set (h1 := mkHeap _ _).
  destruct (snd (Strict.parse_and_validate w req h1)) as [e|[tid x]] eqn:Ep.
  { quiet_case. }
  destruct (strict_parse_inv w req h1 tid x Ep) as (bd & _ & _ & Htid & Hamt).
  apply validateTransactionId_inv in Htid as [_ Hpol].
  apply validateAmount_inv in Hamt as (q & _ & -> & Hpos & Hmax & Hint).
  destruct (env_key w) as [[|k0 key]|] eqn:Hkey; try discriminate.
  destruct Hpol as [Hlen Hchars].
  assert (Hcap : capturable tid (Fin q)).
  { split; [destruct tid; [cbn in Hlen; lia|discriminate]|].
    split; [apply positive_truthy, Hpos|apply positive_not_leb, Hpos]. }
  destruct (strict_capture_sends w (Some (k0 :: key)) tid (Fin q) h1 eq_refl Hcap)
    as (res & Hrun & Hres).
  rewrite Hrun. unfold strict_wire. cbn [default from_option id].
  assert (Hgrow : forall o : Outbound, outbox h ++ [o] <> outbox h).
  { intros o Heq. apply (f_equal (@length _)) in Heq. rewrite length_app in Heq. cbn in Heq. lia. }
  assert (Hsent : exists key' tid' q',
    outbox h ++ [Capture (Some (js "Token " ++ k0 :: key)) None tid (Fin q)]
    = outbox h ++ [Capture (Some (js "Token " ++ key')) None tid' (Fin q')]
    /\ Some (k0 :: key) = Some key' /\ key' <> []
    /\ method req = js "POST" /\ id_policy tid'
    /\ (0 < q')%Q /\ (q' <= 99999999)%Q /\ (exists z : Z, (q' == inject_Z z)%Q)).
  { exists (k0 :: key), tid, q.
    split; [reflexivity|]. split; [reflexivity|]. split; [discriminate|].
    split; [exact Hm|]. split; [split; assumption|]. auto. }
  destruct Hres as [-> | [e ->]]; cbn [fst snd outbox h1];
    (split; [right; exact Hsent|]);
    (split; [intros r [= <-]; cbn [status]; congruence
            | intros r [= <-]; cbn [status]; first [discriminate | intros _; apply Hgrow]]).
Qed.

Lemma strict_wire_discipline_witness :
  outbox (fst (Strict.handler (strict_world friendly_gateway) strict_request empty_heap))
  <> outbox empty_heap.
Proof.
  apply (proj2 (proj2 (strict_wire_discipline (strict_world friendly_gateway) strict_request
                         empty_heap))
           (mkResponse 200 true None (Some (js "0b9f6a52-7c1e-4f0a-9d3b-5e2a8c417d66"))));
    reflexivity.
Defined.

Lemma strict_handler_step w req h :
  fst (Strict.handler w req h) = h
  \/ exists hs,
       headers req = Some hs
       /\ fst (Strict.checkRateLimit (now w) (Strict.clientId_of hs) (rateLimitStore h)) = true
       /\ rateLimitStore (fst (Strict.handler w req h))
          = snd (Strict.checkRateLimit (now w) (Strict.clientId_of hs) (rateLimitStore h))
       /\ (length (outbox (fst (Strict.handler w req h))) <= length (outbox h) + 1)%nat.
Proof.
  rewrite handler_unfold.
  destruct (negb (jsstring_eqb _ _)); [left; reflexivity|].
  destruct (headers req) as [hs|]; [|left; reflexivity]. cbv zeta.
  destruct (Nat.le_gt_cases 5 (length (live (now w)
              (default [] (rateLimitStore h !! Strict.clientId_of hs))))) as [Hfull|Hroom].
  { rewrite (checkRateLimit_deny _ _ _ Hfull). cbn [fst snd negb]. left. destruct h; reflexivity. }
  right. exists hs. split; [reflexivity|].
  rewrite (checkRateLimit_allow _ _ _ Hroom). cbn [fst snd negb]. split; [reflexivity|].
  destruct (stringify_byteLength _ _) as [e|n]; [cbn; split; [reflexivity|lia]|].
  destruct (_ <? _); [cbn; split; [reflexivity|lia]|].
  destruct (missing _); [cbn; split; [reflexivity|lia]|].
  set (h1 := mkHeap _ _).
  destruct (snd (Strict.parse_and_validate w req h1)) as [e|[tid amt]];
    [cbn; split; [reflexivity|lia]|].
  pose proof (strict_capture_store w (env_key w) tid amt h1) as Hs.
  pose proof (strict_capture_outbox w (env_key w) tid amt h1) as Ho.
  destruct (Strict.captureTransaction w (env_key w) tid amt h1) as [h2 [e|b]];
    cbn [fst] in *; (split; [exact Hs|]);
    destruct Ho as [-> | ->]; rewrite ?length_app; cbn; lia.
Qed.

Lemma serve_budget c t : forall invocations h,
  Forall (of_client_within c t) invocations ->
  (length (outbox (serve invocations h))
   + Nat.min 5 (length (live t (default [] (rateLimitStore h !! c))))
   <= length (outbox h) + 5)%nat.
Proof.
  induction invocations as [|[w req] rest IH]; intros h Hall.
  - cbn [serve]. lia.
  - inversion Hall as [|i l [Hnow Hc] Hrest]; subst. cbn [fst snd] in *.
    cbn [serve]. specialize (IH (fst (Strict.handler w req h)) Hrest).
    destruct (strict_handler_step w req h) as [Hsame | (hs & Hh & Hok & Hstore & Hout)].
    + rewrite Hsame in *. exact IH.
    + rewrite (Hc hs Hh) in *. rewrite Hstore in IH.
      destruct (Nat.le_gt_cases 5 (length (live (now w) (default [] (rateLimitStore h !! c)))))
        as [Hfull|Hroom].
      { rewrite (checkRateLimit_deny _ _ _ Hfull) in Hok. discriminate. }
      rewrite (checkRateLimit_allow _ _ _ Hroom) in IH. cbn [snd] in IH.
      rewrite lookup_insert_eq in IH. change (default [] (Some ?l)) with l in IH.
      rewrite live_app, (live_live t (now w)) in IH by lia.
      assert (Hin : live t [now w] = [now w]).
      { unfold live. cbn [List.filter]. rewrite (proj2 (Z.ltb_lt _ _)) by lia. reflexivity. }
      rewrite Hin, length_app in IH. cbn [length] in IH.
      pose proof (live_shrinks t (now w) (default [] (rateLimitStore h !! c))
                    ltac:(lia)) as Hs.
      lia.
Qed.

(** X10: the limiter in front of the gateway.  Of any number of invocations of
    the strict handler that fall in one minute and come from one client,
    whatever their order, their bodies, the answers of the gateway and the
    record the client already has, at most five send a request to the
    gateway. *)
Theorem strict_burst_is_capped (clientId : jsstring) (t : Z)
    (invocations : list (World * Request)) (h : Heap)
    (Hall : Forall (of_client_within clientId t) invocations) :
  (length (outbox (serve invocations h)) <= length (outbox h) + 5)%nat.
Proof.
  pose proof (serve_budget clientId t invocations h Hall). lia.
Qed.

Lemma strict_burst_is_capped_witness :
  (length (outbox (serve (repeat (strict_world friendly_gateway, strict_request) 8) empty_heap))
   <= length (outbox empty_heap) + 5)%nat.
Proof.
  apply (strict_burst_is_capped (js "203.0.113.7") 1700000000000).
  repeat constructor; cbn; try lia; intros hs [= <-]; reflexivity.
Defined.

(** ** The guard of captureTransaction in the four revisions *)

Lemma capturable_chargeable tid amt :
  capturable tid amt <-> tid <> [] /\ chargeable amt.
Proof.
  unfold capturable, chargeable. split.
  - intros (Htid & Ht & Hl). split; [exact Htid|].
    destruct amt as [|[|]|q]; try discriminate; [left; reflexivity|].
    right. exists q. split; [reflexivity|].
    apply Qnot_le_lt. intros Hle.
    apply (proj2 (num_leb_Fin q (inject_Z 0))) in Hle. unfold num_of_Z in Hl. congruence.
  - intros (Htid & [-> | (q & -> & Hpos)]); split; auto.
    split; [apply positive_truthy, Hpos|apply positive_not_leb, Hpos].
Qed.

Lemma guard_fails tid amt :
  ~ capturable tid amt ->
  negb (truthy (JStr tid)) || negb (num_truthy amt) || num_leb amt (num_of_Z 0) = true.
Proof.
  intros Hn. destruct (negb (truthy (JStr tid)) || negb (num_truthy amt)
                       || num_leb amt (num_of_Z 0)) eqn:E; [reflexivity|].
  exfalso. apply Hn. apply orb_false_iff in E as [E Hl]. apply orb_false_iff in E as [Ht Ha].
  apply negb_false_iff in Ht, Ha. split; [|split; assumption].
  destruct tid; [discriminate|discriminate].
Qed.

Lemma loose_capture_run w authToken tid amt h :
  capturable tid amt ->
  Loose.captureTransaction w authToken tid amt h
  = (mkHeap (rateLimitStore h) (outbox h ++ [token_wire authToken tid amt]),
     inr match gateway w (token_wire authToken tid amt) with
         | HttpResponse st d => is_2xx st && truthy d
         | NoResponse _ => false
         end).
Proof.
  intros Hcap. unfold Loose.captureTransaction, axios_post, send, token_wire, is_2xx.
  rewrite (capturable_guard _ _ Hcap). msimpl.
  destruct (gateway w _) as [st d|reason]; [|reflexivity].
  destruct ((200 <=? st) && (st <? 300)) eqn:E; msimpl; [|reflexivity].
  rewrite E. cbn [andb]. destruct (truthy d); reflexivity.
Qed.

Lemma bearer_capture_run w key tid amt h :
  missing key = false -> capturable tid amt ->
  Bearer.captureTransaction w key tid amt h
  = (mkHeap (rateLimitStore h) (outbox h ++ [strict_wire key tid amt]),
     match gateway w (strict_wire key tid amt) with
     | HttpResponse st d =>
         if is_2xx st
         then
           if st =? 201 then inr true
           else inl (new_Error (js "Paymob Capture Request Failed: "
                  ++ js "Paymob Capture Failed: "
                  ++ template (rt w)
                       (jor (opt_get d (js "message"))
                            (jor (opt_get d (js "detail")) (JSON_stringify (rt w) d)))))
         else inl (new_Error (js "Paymob Capture Request Failed: "
                ++ spec_failure_text (rt w) d (axios_status_message (rt w) st)))
     | NoResponse reason =>
         inl (new_Error (js "Paymob Capture Request Failed: " ++ reason))
     end).
Proof.
  intros Hkey Hcap. unfold Bearer.captureTransaction, axios_post, send, strict_wire, is_2xx.
  rewrite Hkey, (capturable_guard _ _ Hcap). msimpl.
  destruct (gateway w _) as [st d|reason]; [|reflexivity].
  destruct ((200 <=? st) && (st <? 300)) eqn:E; msimpl; [|reflexivity].
  destruct (st =? 201); reflexivity.
Qed.

(** X11: the guard of [captureTransaction].  In each of the four revisions an
    empty identifier, or an amount that is not positive ([NaN], 0, a negative
    number, negative infinity), stops the call before the network: the first
    revision returns [false], the others throw [Invalid input for capture:
    Missing transactionId or invalid amount.].  In the revisions with a static
    key a missing key is reported first.  With a non-empty identifier and a
    positive amount (positive infinity included) exactly one request is sent. *)
Theorem capture_guard (w : World) (tid : jsstring) (amt : Num) (h : Heap) :
  (~ (tid <> [] /\ chargeable amt) ->
   (forall authToken,
      Loose.captureTransaction w authToken tid amt h = (h, inr false)
      /\ Token.captureTransaction w authToken tid amt h
         = (h, inl (new_Error
              (js "Invalid input for capture: Missing transactionId or invalid amount."))))
   /\ (forall key, missing key = false ->
      Strict.captureTransaction w key tid amt h
      = (h, inl (new_Error
           (js "Invalid input for capture: Missing transactionId or invalid amount.")))
      /\ Bearer.captureTransaction w key tid amt h
         = (h, inl (new_Error
              (js "Invalid input for capture: Missing transactionId or invalid amount.")))))
  /\ (forall key, missing key = true ->
      Strict.captureTransaction w key tid amt h
      = (h, inl (new_Error (js "Server configuration error: Missing Secret Key.")))
      /\ Bearer.captureTransaction w key tid amt h
         = (h, inl (new_Error (js "Server configuration error: Missing Secret Key."))))
  /\ (tid <> [] /\ chargeable amt ->
      (forall authToken,
         sends h (fst (Loose.captureTransaction w authToken tid amt h))
               (token_wire authToken tid amt)
         /\ sends h (fst (Token.captureTransaction w authToken tid amt h))
                  (token_wire authToken tid amt))
      /\ (forall key, missing key = false ->
         sends h (fst (Strict.captureTransaction w key tid amt h)) (strict_wire key tid amt)
         /\ sends h (fst (Bearer.captureTransaction w key tid amt h))
                  (strict_wire key tid amt))).
Proof.
  split; [|split].
  - intros Hn. rewrite <- capturable_chargeable in Hn. pose proof (guard_fails tid amt Hn) as Hg.
    split.
    + intros authToken. unfold Loose.captureTransaction, Token.captureTransaction.
      rewrite Hg. split; reflexivity.
    + intros key Hkey. unfold Strict.captureTransaction, Bearer.captureTransaction.
      rewrite Hkey, Hg. split; reflexivity.
  - intros key Hkey. unfold Strict.captureTransaction, Bearer.captureTransaction.
    rewrite Hkey. split; reflexivity.
  - intros Hc. rewrite <- capturable_chargeable in Hc.
    pose proof (capturable_guard tid amt Hc) as Hg. unfold sends. split.
    + intros authToken. split.
      * rewrite (loose_capture_run w authToken tid amt h Hc). reflexivity.
      * rewrite (token_capture_run w authToken tid amt h Hc). cbv zeta.
        repeat case_match; reflexivity.
    + intros key Hkey. split.
      * rewrite (strict_capture_run w key tid amt h Hkey Hc). cbv zeta.
        repeat case_match; reflexivity.
      * rewrite (bearer_capture_run w key tid amt h Hkey Hc). reflexivity.
Qed.

Lemma capture_guard_witness :
  Loose.captureTransaction (tiny_world friendly_gateway) (JStr (js "tok_9f3a"))
    (js "TXN12345") NaN empty_heap = (empty_heap, inr false).
Proof.
  apply (proj1 (capture_guard (tiny_world friendly_gateway) (js "TXN12345") NaN empty_heap)).
  intros [_ [H | (q & H & _)]]; discriminate.
Defined.

(** ** Token exchange *)








(** ** The handlers of the major-unit revisions *)

Lemma not_leb_zero x :
  num_leb x (num_of_Z 0) = false <->
  x = NaN \/ x = Inf false \/ exists q, x = Fin q /\ (0 < q)%Q.
Proof.
  split.
  - intros H. destruct x as [|[|]|q]; try discriminate; auto.
    right. right. exists q. split; [reflexivity|].
    apply Qnot_le_lt. intros Hle.
    apply (proj2 (num_leb_Fin q (inject_Z 0))) in Hle. unfold num_of_Z in H. congruence.
  - intros [-> | [-> | (q & -> & Hpos)]]; try reflexivity. apply positive_not_leb, Hpos.
Qed.

Lemma loose_parse_heap w req h : fst (Loose.parse_and_check w req h) = h.
Proof.
  unfold Loose.parse_and_check, prop. crunch; reflexivity.
Qed.

Lemma loose_parse_spec w req h tid x :
  snd (Loose.parse_and_check w req h) = inr (tid, x) <-> loose_body_ok w req tid x.
Proof.
  unfold loose_body_ok, Loose.parse_and_check, prop. split.
  - destruct (truthy (body req)); msimpl; [|discriminate].
    destruct (JSON_parse (rt w) (body req)) as [e|bd]; msimpl; [discriminate|].
    intros H. split; [reflexivity|]. exists bd. split; [reflexivity|].
    destruct bd; msimpl; try discriminate; revert H; msimpl;
      (destruct (get _ (js "transactionId")) as [| | | |[|c s]| |]; msimpl; try discriminate);
      (destruct (get _ (js "amount")) as [| | |a| | |]; msimpl; try discriminate);
      (destruct (num_leb a (num_of_Z 0)) eqn:E; msimpl; [discriminate|]);
      intros [= <- <-]; (split; [reflexivity|]); (split; [discriminate|]);
      (split; [reflexivity|]); apply not_leb_zero, E.
  - intros (Hbody & bd & Hparse & Hid & Hne & Hamt & Hx).
    rewrite Hbody, Hparse. msimpl.
    destruct (has_property_is_object _ _ _ Hid) as [props ->]. msimpl.
    rewrite Hid, Hamt. destruct tid as [|c s]; [congruence|].
    rewrite (proj2 (not_leb_zero x) Hx). reflexivity.
Qed.


(** X14: the body check of the first and of the token revision.  The body is
    accepted exactly when it is truthy and parses to a value whose
    [transactionId] is a non-empty string and whose [amount] is a number that
    is not [<= 0]: a positive number, positive infinity, or [NaN].  There is
    no upper bound and no limit on the identifier.  Every other body is
    answered with 400 and a text that begins with [Invalid request body: ],
    and nothing is sent. *)
Theorem loose_body_check (w : World) (req : Request) (h : Heap) :
  (forall tid x,
     Loose.parse_and_check w req h = (h, inr (tid, x)) <-> loose_body_ok w req tid x)
  /\ (forall tid x,
     Token.parse_and_check w req h = (h, inr (tid, x)) <-> loose_body_ok w req tid x)
  /\ ((forall tid x, ~ loose_body_ok w req tid x) ->
      (missing (env_key w) = false ->
       exists text, Loose.handler w req h
         = (h, inr (mkResponse 400 false (Some (js "Invalid request body: " ++ text)) None)))
      /\ exists text, Token.handler w req h
           = (h, inr (mkResponse 400 false (Some (js "Invalid request body: " ++ text)) None))).
Proof.
  assert (Hiff : forall tid x,
    Loose.parse_and_check w req h = (h, inr (tid, x)) <-> loose_body_ok w req tid x).
  { intros tid x. rewrite <- (loose_parse_spec w req h tid x).
    pose proof (loose_parse_heap w req h) as Hh.
    destruct (Loose.parse_and_check w req h) as [h' r]. cbn [fst snd] in *. subst h'.
    split; [intros [= ->]; reflexivity|intros ->; reflexivity]. }
  split; [exact Hiff|]. split; [exact Hiff|].
  intros Hbad.
  assert (Hfail : exists e, Loose.parse_and_check w req h = (h, inl e)).
  { pose proof (loose_parse_heap w req h) as Hh.
    destruct (Loose.parse_and_check w req h) as [h' [e|[tid x]]] eqn:E;
      cbn [fst] in Hh; subst h'; [eauto|].
    destruct (Hbad tid x). apply Hiff. reflexivity. }
  destruct Hfail as [e He]. split.
  - intros Hkey. unfold Loose.handler. rewrite Hkey. msimpl. rewrite He. msimpl.
    unfold res_json. eauto.
  - unfold Token.handler. msimpl.
    change (Token.parse_and_check w req h) with (Loose.parse_and_check w req h).
    rewrite He. msimpl. unfold res_json. eauto.
Qed.

Lemma loose_body_check_witness :
  Loose.parse_and_check (tiny_world friendly_gateway) tiny_request empty_heap
  = (empty_heap, inr (js "TXN12345", Fin milli)).
Proof.
  apply (proj1 (loose_body_check (tiny_world friendly_gateway) tiny_request empty_heap)).
  split; [reflexivity|]. exists tiny_value.
  split; [reflexivity|]. split; [reflexivity|]. split; [discriminate|].
  split; [reflexivity|]. right. right. exists milli. split; reflexivity.
Defined.





(** ** The bearer revision *)

Lemma bearer_validateAmount_iff (amount : JsValue) (x : Num) :
  Bearer.validateAmount amount = inr x <->
  amount = JNum x
  /\ (x = NaN \/ exists q, x = Fin q /\ (0 < q)%Q /\ (q <= 1000000)%Q).
Proof.
  unfold Bearer.validateAmount. split.
  - intros H. destruct amount as [| | |a| | |]; try discriminate.
    destruct (num_leb a (num_of_Z 0)) eqn:E0; [discriminate|].
    destruct (num_gtb a (num_of_Z 1000000)) eqn:E1; [discriminate|].
    cbn [orb] in H. injection H as <-. split; [reflexivity|].
    apply not_leb_zero in E0 as [-> | [-> | (q & -> & Hpos)]];
      [left; reflexivity | discriminate |].
    right. exists q. split; [reflexivity|]. split; [exact Hpos|].
    apply Qnot_lt_le. intros Hlt.
    apply (proj2 (num_gtb_Fin q (inject_Z 1000000))) in Hlt. unfold num_of_Z in E1. congruence.
  - intros [-> [-> | (q & -> & Hpos & Hmax)]]; [reflexivity|].
    rewrite (positive_not_leb q Hpos).
    destruct (num_gtb (Fin q) (num_of_Z 1000000)) eqn:E1; [|reflexivity].
    apply num_gtb_Fin in E1. exfalso. apply (Qlt_not_le _ _ E1 Hmax).
Qed.

Lemma bearer_validateTransactionId_iff (transactionId r : JsValue) :
  Bearer.validateTransactionId transactionId = inr r <->
  exists s, transactionId = JStr s /\ (1 <= length s <= 100)%nat
            /\ r = JStr (strip_angles (trim s)).
Proof.
  unfold Bearer.validateTransactionId, Bearer.sanitizeInput, strip_angles. split.
  - intros H. destruct transactionId as [| | | |s| |]; try discriminate.
    destruct (length s <? 1)%nat eqn:E1; [discriminate|].
    destruct (100 <? length s)%nat eqn:E2; [discriminate|].
    cbn [orb] in H. injection H as <-. exists s.
    apply Nat.ltb_ge in E1. apply Nat.ltb_ge in E2. auto.
  - intros (s & -> & [Hlo Hhi] & ->).
    rewrite (proj2 (Nat.ltb_ge _ _) Hlo), (proj2 (Nat.ltb_ge _ _) Hhi). reflexivity.
Qed.

(** X17: the validators of the bearer revision.  [validateAmount] accepts exactly
    the numbers that are neither [<= 0] nor [> 1000000]: the positive numbers
    up to 1000000, the bound included, and [NaN]; it returns the number
    unchanged.  [validateTransactionId] accepts exactly the strings of 1 to
    100 code units, measured before trimming, and returns the string trimmed
    and without angle brackets, a subsequence of the input; no other
    character is restricted. *)
Theorem bearer_validation_spec (v r : JsValue) (x : Num) :
  (Bearer.validateAmount v = inr x <->
   v = JNum x /\ (x = NaN \/ exists q, x = Fin q /\ (0 < q)%Q /\ (q <= 1000000)%Q))
  /\ (Bearer.validateTransactionId v = inr r <->
      exists s, v = JStr s /\ (1 <= length s <= 100)%nat
                /\ r = JStr (strip_angles (trim s)))
  /\ (forall s, v = JStr s -> (1 <= length s <= 100)%nat ->
      no_angle (strip_angles (trim s))
      /\ strip_angles (trim s) `sublist_of` s).
Proof.
  split; [apply bearer_validateAmount_iff|].
  split; [apply bearer_validateTransactionId_iff|].
  intros s _ _. split; [apply strip_angles_no_angle|].
  etransitivity; [apply filter_sublist|apply trim_sublist].
Qed.

Lemma bearer_validation_spec_witness :
  Bearer.validateAmount (JNum NaN) = inr NaN.
Proof.
  apply (proj1 (bearer_validation_spec (JNum NaN) JNull NaN)).
  split; [reflexivity|]. left. reflexivity.
Defined.

Lemma bearer_parse_accepts w req h bodyData s x :
  truthy (body req) = true ->
  JSON_parse (rt w) (body req) = inr bodyData ->
  get bodyData (js "transactionId") = JStr s -> (1 <= length s <= 100)%nat ->
  get bodyData (js "amount") = JNum x ->
  (x = NaN \/ exists q, x = Fin q /\ (0 < q)%Q /\ (q <= 1000000)%Q) ->
  Bearer.parse_and_validate w req h = (h, inr (strip_angles (trim s), x)).
Proof.
  intros Hbody Hparse Hid Hlen Hamt Hx.
  unfold Bearer.parse_and_validate, prop. rewrite Hbody, Hparse. msimpl.
  destruct (has_property_is_object _ _ _ Hid) as [props ->]. msimpl.
  rewrite Hid, Hamt.
  rewrite (proj2 (bearer_validateTransactionId_iff (JStr s) (JStr (strip_angles (trim s))))
             ltac:(eauto)).
  msimpl. rewrite (proj2 (bearer_validateAmount_iff (JNum x) x) (conj eq_refl Hx)).
  reflexivity.
Qed.

(** X18: an identifier that sanitizes to nothing.  In the bearer revision the
    length of the identifier is checked before it is sanitized, so a string
    of 1 to 100 code units that trimming and the removal of angle brackets
    leave empty passes validation as the empty string.  The request is then not
    answered with 400: the guard of the capture refuses it, and the caller
    gets 500 [Invalid input for capture: Missing transactionId or invalid
    amount.]; nothing is sent. *)
Theorem bearer_blank_identifier (w : World) (req : Request) (h : Heap)
    (bodyData : JsValue) (s : jsstring) (x : Num)
    (Hkey : missing (env_key w) = false)
    (Hbody : truthy (body req) = true)
    (Hparse : JSON_parse (rt w) (body req) = inr bodyData)
    (Hid : get bodyData (js "transactionId") = JStr s)
    (Hlen : (1 <= length s <= 100)%nat)
    (Hblank : strip_angles (trim s) = [])
    (Hamt : get bodyData (js "amount") = JNum x)
    (Hx : x = NaN \/ exists q, x = Fin q /\ (0 < q)%Q /\ (q <= 1000000)%Q) :
  Bearer.validateTransactionId (JStr s) = inr (JStr (strip_angles (trim s)))
  /\ Bearer.handler w req h
     = (h, inr (mkResponse 500 false
                  (Some (js "Invalid input for capture: Missing transactionId or invalid amount."))
                  None)).
Proof.
  split.
  - apply bearer_validateTransactionId_iff. eauto.
  - unfold Bearer.handler. rewrite Hkey. msimpl.
    rewrite (bearer_parse_accepts w req h bodyData s x Hbody Hparse Hid Hlen Hamt Hx). msimpl.
    unfold Bearer.captureTransaction. rewrite Hkey, Hblank. reflexivity.
Qed.

Lemma bearer_blank_identifier_witness :
  Bearer.handler blank_world blank_request empty_heap
  = (empty_heap,
     inr (mkResponse 500 false
            (Some (js "Invalid input for capture: Missing transactionId or invalid amount."))
            None)).
Proof.
  apply (proj2 (bearer_blank_identifier blank_world blank_request empty_heap
                  blank_value (js "<>") (Fin (51 # 2)) eq_refl eq_refl eq_refl eq_refl
                  ltac:(vm_compute; lia) eq_refl eq_refl
                  ltac:(right; exists (51 # 2); repeat split; discriminate))).
Defined.



(** ** All revisions without the strict gates *)

(** X20: the first, the token and the bearer handler never throw: whatever the
    request and the gateway, each answers, with 200 and [success: true], or
    with 400 or 500, [success: false] and an error text; none of them gives a
    request identifier. *)
Theorem loose_handlers_always_answer (w : World) (req : Request) (h : Heap) :
  (exists h' r, Loose.handler w req h = (h', inr r) /\ loose_surface r)
  /\ (exists h' r, Token.handler w req h = (h', inr r) /\ loose_surface r)
  /\ (exists h' r, Bearer.handler w req h = (h', inr r) /\ loose_surface r).
Proof.
  unfold loose_surface, res_json.
  split; [|split].
  - unfold Loose.handler, res_json. destruct (missing (env_key w)); msimpl.
    { eexists _, _. split; [reflexivity|]. cbn. eauto 10. }
    destruct (Loose.parse_and_check w req h) as [h1 [e|[tid x]]]; msimpl.
    { eexists _, _. split; [reflexivity|]. cbn. eauto 10. }
    destruct (Loose.getAuthToken w (env_key w) h1) as [h2 [e|v]]; msimpl.
    { eexists _, _. split; [reflexivity|]. cbn. eauto 10. }
    destruct (truthy v); msimpl.
    2:{ eexists _, _. split; [reflexivity|]. cbn. eauto 10. }
    destruct (Loose.captureTransaction w v tid _ h2) as [h3 [e|[|]]]; msimpl;
      eexists _, _; (split; [reflexivity|]); cbn; eauto 10.
  - unfold Token.handler, res_json. msimpl.
    destruct (Token.parse_and_check w req h) as [h1 [e|[tid x]]]; msimpl.
    { eexists _, _. split; [reflexivity|]. cbn. eauto 10. }
    destruct (Token.getAuthToken w (env_key w) h1) as [h2 [e|v]]; msimpl.
    { eexists _, _. split; [reflexivity|]. cbn. eauto 10. }
    destruct (Token.captureTransaction w v tid _ h2) as [h3 [e|b]]; msimpl;
      eexists _, _; (split; [reflexivity|]); cbn; eauto 10.
  - unfold Bearer.handler, res_json. destruct (missing (env_key w)); msimpl.
    { eexists _, _. split; [reflexivity|]. cbn. eauto 10. }
    destruct (Bearer.parse_and_validate w req h) as [h1 [e|[tid x]]]; msimpl.
    { eexists _, _. split; [reflexivity|]. cbn. eauto 10. }
    destruct (Bearer.captureTransaction w (env_key w) tid _ h1) as [h3 [e|b]]; msimpl;
      eexists _, _; (split; [reflexivity|]); cbn; eauto 10.
Qed.

Lemma bearer_parse_heap w req h : fst (Bearer.parse_and_validate w req h) = h.
Proof. apply bearer_parse. Qed.

(** X21: without the credential no revision calls the gateway.  The first and the
    bearer revision answer 500 [Server configuration error.] before they look
    at the body.  The token revision checks the body first: a rejected body
    gives its 400, an accepted one 500 [Server configuration error: Missing
    API Key.].  The strict revision fails at the first gate that refuses.  In
    each case the response has [success: false] and nothing is sent. *)
Theorem missing_credential_stays_local (w : World) (req : Request) (h : Heap)
    (Hkey : missing (env_key w) = true) :
  Loose.handler w req h
  = (h, inr (mkResponse 500 false (Some (js "Server configuration error.")) None))
  /\ Bearer.handler w req h
     = (h, inr (mkResponse 500 false (Some (js "Server configuration error.")) None))
  /\ ((exists tid x, loose_body_ok w req tid x) ->
      Token.handler w req h
      = (h, inr (mkResponse 500 false
                   (Some (js "Server configuration error: Missing API Key.")) None)))
  /\ (exists r, snd (Token.handler w req h) = inr r /\ success r = false)
  /\ outbox (fst (Token.handler w req h)) = outbox h
  /\ (exists r, snd (Strict.handler w req h) = inr r /\ success r = false)
  /\ outbox (fst (Strict.handler w req h)) = outbox h.
Proof.
  assert (Htoken : forall tid x, loose_body_ok w req tid x ->
    Token.handler w req h
    = (h, inr (mkResponse 500 false
                 (Some (js "Server configuration error: Missing API Key.")) None))).
  { intros tid x Hbody. apply (loose_parse_spec w req h) in Hbody.
    pose proof (loose_parse_heap w req h) as Hh.
    unfold Token.handler. msimpl.
    change (Token.parse_and_check w req h) with (Loose.parse_and_check w req h).
    destruct (Loose.parse_and_check w req h) as [h1 r]. cbn [fst snd] in *. subst h1 r.
    msimpl. unfold Token.getAuthToken. rewrite Hkey. reflexivity. }
  split; [unfold Loose.handler; rewrite Hkey; reflexivity|].
  split; [unfold Bearer.handler; rewrite Hkey; reflexivity|].
  split; [intros (tid & x & Hbody); eapply Htoken, Hbody|].
  assert (Hany : (exists r, snd (Token.handler w req h) = inr r /\ success r = false)
                 /\ outbox (fst (Token.handler w req h)) = outbox h).
  { pose proof (loose_parse_heap w req h) as Hh.
    destruct (Loose.parse_and_check w req h) as [h1 [e|[tid x]]] eqn:E; cbn [fst] in Hh; subst h1.
    - unfold Token.handler. msimpl.
      change (Token.parse_and_check w req h) with (Loose.parse_and_check w req h).
      rewrite E. msimpl. split; [eexists; split; reflexivity|reflexivity].
    - rewrite (Htoken tid x).
      + split; [eexists; split; reflexivity|reflexivity].
      + apply (loose_parse_spec w req h). rewrite E. reflexivity. }
  destruct Hany as [Hr Ho]. split; [exact Hr|]. split; [exact Ho|].
  rewrite handler_unfold, Hkey. unfold res_json.
  destruct (negb _); [split; [eexists; split; reflexivity|reflexivity]|].
  destruct (headers req); [|split; [eexists; split; reflexivity|reflexivity]].
  cbv zeta. destruct (negb _); [split; [eexists; split; reflexivity|reflexivity]|].
  destruct (stringify_byteLength _ _); [split; [eexists; split; reflexivity|reflexivity]|].
  destruct (_ <? _); split; (eexists; split; reflexivity) || reflexivity.
Qed.

Lemma missing_credential_stays_local_witness :
  Loose.handler (example_world (example_runtime pounds_text pounds_value) None friendly_gateway)
                pounds_request empty_heap
  = (empty_heap, inr (mkResponse 500 false (Some (js "Server configuration error.")) None)).
Proof.
  apply (missing_credential_stays_local
           (example_world (example_runtime pounds_text pounds_value) None friendly_gateway)
           pounds_request empty_heap eq_refl).
Defined.
